(** * Unit registry and monitoring loop of the temperature/humidity web app

    A shallow embedding of [src/app.py] (and of the schema of
    [src/init_db.py]) together with the properties of the unit registry,
    the monitoring loop, the alert dispatcher, the add-unit operation and
    the live feed.

    Python code is embedded as functions in a state-and-exception monad over
    a [World]: the durable SQLite store, the heap of dictionary objects the
    global [units] points into, the lock [units_lock], the standard output,
    and the state of everything outside the program (GPIO hardware, clock,
    SMTP transport, SQLite availability), which is a parameter. *)

From Stdlib Require Import Floats ZArith.
From stdpp Require Import gmap strings list pretty.

Open Scope Z_scope.
Open Scope string_scope.

(** ** Python values and outcomes *)

(** The exception classes the program raises or catches.  All of them are
    subclasses of Python's [Exception]. *)
Inductive exn_class : Type :=
| AttributeError
| KeyError
| ValueError
| TypeError
| RuntimeError
| IntegrityError
| OperationalError
| OtherException.

Record exn : Type := mkExn { exn_cls : exn_class; exn_msg : string }.

Definition is_RuntimeError (e : exn) : bool :=
  match exn_cls e with RuntimeError => true | _ => false end.

Definition is_IntegrityError (e : exn) : bool :=
  match exn_cls e with IntegrityError => true | _ => false end.

(** What running a piece of Python code ends in: it returns a value, it
    raises an exception, or it never returns (a thread that waits for ever
    for a lock). *)
Inductive outcome (A : Type) : Type :=
| Returns (a : A)
| Raises (e : exn)
| Hangs.
Arguments Returns {A} a.
Arguments Raises {A} e.
Arguments Hangs {A}.

(** What a call into a library or a device answers: a value or an
    exception (a stalled device is taken to raise in the end). *)
Inductive reply (A : Type) : Type :=
| Value (a : A)
| Error (e : exn).
Arguments Value {A} a.
Arguments Error {A} e.

(** A line feed, for the chunks of the event stream. *)
Definition nl : string := String (Ascii.ascii_of_nat 10) EmptyString.

(** ** Insertion-ordered dictionaries keyed by integers

    A Python [dict] keeps its keys in insertion order, and storing under a
    key that is present replaces the value in place. *)
Module PyDict.

Abbreviation dict V := (list (Z * V)).

Fixpoint setitem {V} (k : Z) (v : V) (d : dict V) : dict V :=
  match d with
  | [] => [(k, v)]
  | (k', v') :: d' =>
      if Z.eqb k k' then (k, v) :: d' else (k', v') :: setitem k v d'
  end.

Fixpoint getitem {V} (k : Z) (d : dict V) : option V :=
  match d with
  | [] => None
  | (k', v') :: d' => if Z.eqb k k' then Some v' else getitem k d'
  end.

Definition keys {V} (d : dict V) : list Z := map fst d.

Definition items {V} (d : dict V) : list (Z * V) := d.

End PyDict.
Import PyDict.

(** ** The durable store ([init_db.py]) *)

(** [units(id, name UNIQUE, dht_pin, fan_pin, active)] *)
Record unit_row : Type := mkUnitRow {
  row_id : Z;
  row_name : string;
  row_dht_pin : string;
  row_fan_pin : Z;
  row_active : Z
}.

(** [temperature_log(unit_id, temperature, humidity, fan_status)]; the
    autoincremented id and the default timestamp are left out. *)
Record log_row : Type := mkLogRow {
  log_unit_id : Z;
  log_temperature : option float;
  log_humidity : option float;
  log_fan_status : Z
}.

Record Database : Type := mkDatabase {
  tbl_units : list unit_row;
  (* the largest id the units table ever used (AUTOINCREMENT) *)
  seq_units : Z;
  tbl_temperature_log : list log_row;
  (* email_recipients(email UNIQUE) *)
  tbl_email_recipients : list string;
  (* settings(key PRIMARY KEY, value TEXT); NULL is None *)
  tbl_settings : list (string * option string)
}.

(** ** Messages, responses and snapshots *)

(** [flask_mail.Message(subject=..., recipients=[...], body=...)] *)
Record Message : Type := mkMessage {
  subject : string;
  recipients : list string;
  body : string
}.

(** [jsonify({"success": ..., "error": ...}), status] *)
Record response : Type := mkResponse {
  success : bool;
  error : option string;
  status : Z
}.

(** The form of a POST to [/units/add]; a missing field is [None]. *)
Record add_unit_form : Type := mkForm {
  form_name : option string;
  form_dht_pin : option string;
  form_fan_pin : option string
}.

(** One entry of the snapshot the live feed serialises. *)
Record snapshot_entry : Type := mkSnapshotEntry {
  snap_name : string;
  snap_temperature : option float;
  snap_humidity : option float;
  snap_fan_status : string
}.

(** ** Everything outside the program

    The board, the sensor and fan drivers, the SMTP transport, SQLite's
    availability and the clock act on a state [Env] of their own.  The
    program is verified for every such platform. *)
Class Platform : Type := {
  Env : Type;
  Pin : Type;
  Sensor : Type;
  Fan : Type;
  (* getattr(board, pin_str); None when it raises AttributeError *)
  board_getattr : string -> option Pin;
  (* adafruit_dht.DHT22(pin) *)
  DHT22 : Pin -> Env -> reply Sensor * Env;
  (* gpiozero.OutputDevice(pin_number) *)
  OutputDevice : Z -> Env -> reply Fan * Env;
  (* sensor.temperature and sensor.humidity *)
  sensor_temperature : Sensor -> Env -> reply (option float) * Env;
  sensor_humidity : Sensor -> Env -> reply (option float) * Env;
  (* fan.value *)
  fan_value : Fan -> Env -> reply Z * Env;
  (* mail.send(msg) *)
  mail_send : Message -> Env -> reply unit * Env;
  (* whether the next access to the SQLite file fails, and with what *)
  sqlite_fault : Env -> option exn * Env;
  (* time.time() and time.sleep(seconds) *)
  time_time : Env -> float * Env;
  time_sleep : float -> Env -> Env;
  (* the builtins round(x, ndigits), float(text), int(text), and the
     formatting of a float inside an f-string *)
  py_round : float -> Z -> float;
  py_float : string -> option float;
  py_int : string -> option Z;
  str_float : float -> string;
  (* json.dumps(snapshot) *)
  json_dumps : dict snapshot_entry -> string
}.

(** Addresses of dictionary objects. *)
Abbreviation loc := nat.

Section App.

Context {platform : Platform}.

(** ** The state of the process *)

(** [{"name": name, "sensor": sensor, "fan": fan}] *)
Record RuntimeUnit : Type := mkRuntimeUnit {
  name : string;
  sensor : Sensor;
  fan : Fan
}.

(** The world as the running thread sees it.  [units] is a global variable
    holding a reference to a dictionary object; dictionary objects live in
    [heap].  [units_lock] tells whether the running thread holds the lock of
    that name.  [store_history] is ghost state: after every mutation of a
    dictionary object or of the global, the pair of the global and the heap
    is appended to it, so it lists every state of the registry another
    thread can come across. *)
Record World : Type := mkWorld {
  env : Env;
  db : Database;
  heap : gmap loc (dict RuntimeUnit);
  units : loc;
  units_lock : bool;
  stdout : list string;
  mail_calls : list Message;
  store_history : list (loc * gmap loc (dict RuntimeUnit))
}.

(** The dictionary a reference denotes, and the registry: the dictionary
    the global [units] denotes. *)
Definition deref (h : gmap loc (dict RuntimeUnit)) (l : loc) : dict RuntimeUnit :=
  default [] (h !! l).

Definition registry (w : World) : dict RuntimeUnit := deref (heap w) (units w).

Definition set_env (e : Env) (w : World) : World :=
  mkWorld e (db w) (heap w) (units w) (units_lock w) (stdout w)
          (mail_calls w) (store_history w).

Definition set_db (d : Database) (w : World) : World :=
  mkWorld (env w) d (heap w) (units w) (units_lock w) (stdout w)
          (mail_calls w) (store_history w).

Definition set_units_lock (b : bool) (w : World) : World :=
  mkWorld (env w) (db w) (heap w) (units w) b (stdout w)
          (mail_calls w) (store_history w).

Definition add_stdout (s : string) (w : World) : World :=
  mkWorld (env w) (db w) (heap w) (units w) (units_lock w) (stdout w ++ [s])
          (mail_calls w) (store_history w).

Definition add_mail_call (m : Message) (w : World) : World :=
  mkWorld (env w) (db w) (heap w) (units w) (units_lock w) (stdout w)
          (mail_calls w ++ [m]) (store_history w).

(** Mutations of the heap and of the global record themselves. *)
Definition set_heap (h : gmap loc (dict RuntimeUnit)) (w : World) : World :=
  mkWorld (env w) (db w) h (units w) (units_lock w) (stdout w)
          (mail_calls w) (store_history w ++ [(units w, h)]).

Definition set_units (l : loc) (w : World) : World :=
  mkWorld (env w) (db w) (heap w) l (units_lock w) (stdout w)
          (mail_calls w) (store_history w ++ [(l, heap w)]).

(** ** The monad *)

Definition M (A : Type) : Type := World -> outcome A * World.

Definition ret {A} (a : A) : M A := fun w => (Returns a, w).

Definition bind {A B} (m : M A) (k : A -> M B) : M B := fun w =>
  match m w with
  | (Returns a, w') => k a w'
  | (Raises e, w') => (Raises e, w')
  | (Hangs, w') => (Hangs, w')
  end.

Definition raise {A} (e : exn) : M A := fun w => (Raises e, w).

(** [try: m  except Exception as e: h e] *)
Definition try_except {A} (m : M A) (h : exn -> M A) : M A := fun w =>
  match m w with
  | (Raises e, w') => h e w'
  | r => r
  end.

Notation "x <- c1 ;; c2" := (bind c1 (fun x => c2))
  (at level 100, c1 at next level, right associativity).
Notation "c1 ;; c2" := (bind c1 (fun _ => c2))
  (at level 100, right associativity).

(** A call into the platform. *)
Definition call {A} (f : Env -> reply A * Env) : M A := fun w =>
  match f (env w) with
  | (Value a, e) => (Returns a, set_env e w)
  | (Error x, e) => (Raises x, set_env e w)
  end.

Definition print (s : string) : M unit := fun w => (Returns tt, add_stdout s w).

Definition sleep (seconds : float) : M unit := fun w =>
  (Returns tt, set_env (time_sleep seconds (env w)) w).

Definition time : M float := fun w =>
  let (t, e) := time_time (env w) in (Returns t, set_env e w).

Fixpoint for_each {A} (xs : list A) (f : A -> M unit) : M unit :=
  match xs with
  | [] => ret tt
  | x :: xs' => f x ;; for_each xs' f
  end.

(** [with units_lock: body].  [threading.Lock] is not reentrant: acquiring
    it while it is held waits until it is released, which a thread that
    holds it itself never sees.  The lock is released when the body returns
    or raises. *)
Definition with_units_lock {A} (body : M A) : M A := fun w =>
  if units_lock w then (Hangs, w)
  else
    match body (set_units_lock true w) with
    | (Hangs, w') => (Hangs, w')
    | (r, w') => (r, set_units_lock false w')
    end.

(** [units[unit_id]], which raises [KeyError] for an absent key. *)
Definition units_getitem (unit_id : Z) : M RuntimeUnit := fun w =>
  match getitem unit_id (registry w) with
  | Some u => (Returns u, w)
  | None => (Raises (mkExn KeyError (pretty unit_id)), w)
  end.

(** One access to the SQLite file ([sqlite3.connect] and the statements run
    on the connection): it raises when the platform says so. *)
Definition sqlite_connect : M unit := fun w =>
  let (f, e) := sqlite_fault (env w) in
  match f with
  | Some x => (Raises x, set_env e w)
  | None => (Returns tt, set_env e w)
  end.

(** ** GPIO and sensor management *)

Definition get_board_pin (pin_str : string) : M (option Pin) :=
  match board_getattr pin_str with
  | Some pin => ret (Some pin)
  | None => print ("Invalid board pin name: " ++ pin_str) ;; ret None
  end.

(** [SELECT id, name, dht_pin, fan_pin FROM units WHERE active=1] *)
Definition active_units (d : Database) : list unit_row :=
  List.filter (fun r => (row_active r =? 1)%Z) (tbl_units d).

Definition select_active_units : M (list unit_row) :=
  sqlite_connect ;; fun w => (Returns (active_units (db w)), w).

(** [new_units = {}]: a dictionary object no reference denotes yet. *)
Definition new_dict : M loc := fun w =>
  let l := fresh (dom (heap w) ∪ {[units w]}) in
  (Returns l, set_heap (<[l := []]> (heap w)) w).

(** [d[k] = v] on the dictionary object at [l]. *)
Definition dict_setitem (l : loc) (k : Z) (v : RuntimeUnit) : M unit := fun w =>
  (Returns tt, set_heap (<[l := setitem k v (deref (heap w) l)]> (heap w)) w).

(** The body of the loop of [load_units]; each [continue] ends it. *)
Definition load_unit (new_units : loc) (row : unit_row) : M unit :=
  let unit_id := row_id row in
  let dht_pin_str := row_dht_pin row in
  let fan_pin_num := row_fan_pin row in
  print ("Loading unit " ++ pretty unit_id ++ ": " ++ row_name row
         ++ " (Sensor pin: " ++ dht_pin_str ++ ", Fan pin: GPIO"
         ++ pretty fan_pin_num ++ ")") ;;
  dht_pin <- get_board_pin dht_pin_str ;;
  match dht_pin with
  | None =>
      print ("[Unit " ++ pretty unit_id ++ "] Skipped: Invalid DHT pin '"
             ++ dht_pin_str ++ "'")
  | Some dht_pin =>
      made <- try_except
                (s <- call (DHT22 dht_pin) ;; ret (Some s))
                (fun e =>
                   print ("[Unit " ++ pretty unit_id
                          ++ "] Skipped: Failed to init DHT22 - " ++ exn_msg e) ;;
                   ret None) ;;
      match made with
      | None => ret tt
      | Some sensor =>
          made <- try_except
                    (f <- call (OutputDevice fan_pin_num) ;; ret (Some f))
                    (fun e =>
                       print ("[Unit " ++ pretty unit_id
                              ++ "] Skipped: Failed to init fan on GPIO"
                              ++ pretty fan_pin_num ++ " - " ++ exn_msg e) ;;
                       ret None) ;;
          match made with
          | None => ret tt
          | Some fan =>
              dict_setitem new_units unit_id
                (mkRuntimeUnit (row_name row) sensor fan) ;;
              print ("[Unit " ++ pretty unit_id ++ "] Loaded successfully")
          end
      end
  end.

Definition load_units : M unit :=
  results <- select_active_units ;;
  new_units <- new_dict ;;
  for_each results (load_unit new_units) ;;
  with_units_lock (fun w => (Returns tt, set_units new_units w)).

Definition read_sensor (unit_id : Z) : M (option float * option float) :=
  sensor <- with_units_lock (u <- units_getitem unit_id ;; ret (sensor u)) ;;
  try_except
    (temperature <- call (sensor_temperature sensor) ;;
     humidity <- call (sensor_humidity sensor) ;;
     ret (option_map (fun t => py_round t 2) temperature,
          option_map (fun h => py_round h 2) humidity))
    (fun e =>
       if is_RuntimeError e then
         print ("DHT RuntimeError (unit " ++ pretty unit_id ++ "): "
                ++ exn_msg e) ;;
         ret (None, None)
       else
         print ("Sensor read failed for unit " ++ pretty unit_id ++ ": "
                ++ exn_msg e) ;;
         ret (None, None)).

Definition get_fan_status (unit_id : Z) : M bool :=
  with_units_lock
    (u <- units_getitem unit_id ;;
     v <- call (fan_value (fan u)) ;;
     ret (v =? 1)%Z).

(** ** Settings and logging *)

Record settings : Type := mkSettings {
  temp_spec_min : float;
  temp_spec_max : float
}.

(** [{k: v for k, v in rows}]: a later row replaces an earlier one. *)
Definition settings_dict (rows : list (string * option string))
  : gmap string (option string) :=
  foldl (fun m kv => <[kv.1 := kv.2]> m) ∅ rows.

(** [float(d.get(key, default))] for a numeric [default]: text is parsed,
    and [None] (a NULL value) is a [TypeError]. *)
Definition float_of_setting (d : gmap string (option string)) (key : string)
    (default : float) : M float :=
  match d !! key with
  | None => ret default
  | Some None =>
      raise (mkExn TypeError "float() argument must be a string or a real number")
  | Some (Some text) =>
      match py_float text with
      | Some x => ret x
      | None => raise (mkExn ValueError ("could not convert string to float: " ++ text))
      end
  end.

Definition get_settings : M settings :=
  try_except
    (sqlite_connect ;;
     rows <- (fun w => (Returns (tbl_settings (db w)), w)) ;;
     let d := settings_dict rows in
     lo <- float_of_setting d "temp_spec_min" 10%float ;;
     hi <- float_of_setting d "temp_spec_max" 40%float ;;
     ret (mkSettings lo hi))
    (fun e =>
       print ("Failed to get settings: " ++ exn_msg e) ;;
       ret (mkSettings 10%float 40%float)).

Definition insert_log (r : log_row) : M unit := fun w =>
  let d := db w in
  (Returns tt,
   set_db (mkDatabase (tbl_units d) (seq_units d) (tbl_temperature_log d ++ [r])
                      (tbl_email_recipients d) (tbl_settings d)) w).

Definition log_data (unit_id : Z) (temperature humidity : option float)
    (fan_on : bool) : M unit :=
  try_except
    (sqlite_connect ;;
     insert_log (mkLogRow unit_id temperature humidity (if fan_on then 1 else 0)))
    (fun e => print ("Failed to log data: " ++ exn_msg e)).

(** ** Email alerting *)

Definition alert_message (unit_id : Z) (temperature : float) (recipient : string)
  : Message :=
  mkMessage ("Temperature Alert for Unit " ++ pretty unit_id)
            [recipient]
            ("Alert: The temperature for unit " ++ pretty unit_id
             ++ " is out of range: " ++ str_float temperature ++ "°C.").

(** [mail.send(msg)]; the call is recorded before the transport answers. *)
Definition send_mail (msg : Message) : M unit := fun w =>
  call (mail_send msg) (add_mail_call msg w).

Definition send_email_alert (unit_id : Z) (temperature : float) : M unit :=
  recipients <- (sqlite_connect ;;
                 fun w => (Returns (tbl_email_recipients (db w)), w)) ;;
  match recipients with
  | [] => print ("No email recipients to alert for unit " ++ pretty unit_id)
  | _ =>
      for_each recipients (fun recipient =>
        try_except
          (send_mail (alert_message unit_id temperature recipient) ;;
           print ("Alert email sent to " ++ recipient ++ " for unit "
                  ++ pretty unit_id))
          (fun e =>
             print ("Failed to send email to " ++ recipient ++ ": "
                    ++ exn_msg e)))
  end.

(** ** The monitoring loop *)

(** The body of the loop over [unit_ids]. *)
Definition monitor_unit (min_temp max_temp : float) (unit_id : Z) : M unit :=
  reading <- read_sensor unit_id ;;
  fan_on <- get_fan_status unit_id ;;
  match reading.1 with
  | Some temp =>
      log_data unit_id (Some temp) reading.2 fan_on ;;
      (if (temp <? min_temp)%float || (max_temp <? temp)%float
       then send_email_alert unit_id temp
       else ret tt)
  | None => ret tt
  end ;;
  sleep 2.

(** One turn of [while True]; it returns the new [last_reload]. *)
Definition monitor_cycle (last_reload : float) : M float :=
  now <- time ;;
  last_reload <- (if (60 <? now - last_reload)%float
                  then load_units ;; ret now
                  else ret last_reload) ;;
  limits <- get_settings ;;
  unit_ids <- with_units_lock (fun w => (Returns (keys (registry w)), w)) ;;
  for_each unit_ids (monitor_unit (temp_spec_min limits) (temp_spec_max limits)) ;;
  sleep 10 ;;
  ret last_reload.

(** The first [n] turns of the loop. *)
Fixpoint monitor_loop_from (n : nat) (last_reload : float) : M unit :=
  match n with
  | O => ret tt
  | S n' =>
      last_reload <- monitor_cycle last_reload ;;
      monitor_loop_from n' last_reload
  end.

Definition monitor_loop (n : nat) : M unit := monitor_loop_from n 0%float.

(** ** Adding a unit *)

(** The truth value of a form field: present and not empty. *)
Definition truthy (field : option string) : bool :=
  match field with
  | Some text => negb (text =? "")
  | None => false
  end.

(** The id AUTOINCREMENT gives the next row of [units]. *)
Definition next_unit_id (d : Database) : Z :=
  (1 + fold_right Z.max (seq_units d) (map row_id (tbl_units d)))%Z.

(** [INSERT INTO units (name, dht_pin, fan_pin, active) VALUES (?, ?, ?, 1)]
    and the commit; [name] is UNIQUE. *)
Definition insert_unit (name dht_pin : string) (fan_pin : Z) : M unit := fun w =>
  let d := db w in
  if existsb (fun r => row_name r =? name) (tbl_units d) then
    (Raises (mkExn IntegrityError "UNIQUE constraint failed: units.name"), w)
  else
    let unit_id := next_unit_id d in
    (Returns tt,
     set_db (mkDatabase (tbl_units d ++ [mkUnitRow unit_id name dht_pin fan_pin 1])
                        unit_id (tbl_temperature_log d)
                        (tbl_email_recipients d) (tbl_settings d)) w).

(** [try: m  except C: h], for the one class [C] that [catches] accepts. *)
Definition try_except_only {A} (catches : exn -> bool) (m : M A)
    (h : exn -> M A) : M A := fun w =>
  match m w with
  | (Raises e, w') => if catches e then h e w' else (Raises e, w')
  | r => r
  end.

(** [hasattr(board, dht_pin)] *)
Definition hasattr_board (pin_str : string) : bool :=
  match board_getattr pin_str with Some _ => true | None => false end.

Definition add_unit (form : add_unit_form) : M response :=
  if negb (truthy (form_name form) && truthy (form_dht_pin form)
           && truthy (form_fan_pin form)) then
    ret (mkResponse false (Some "Missing fields") 400)
  else
    let name := default "" (form_name form) in
    let dht_pin := default "" (form_dht_pin form) in
    match py_int (default "" (form_fan_pin form)) with
    | None => ret (mkResponse false (Some "Invalid fan_pin") 400)
    | Some fan_pin =>
        sqlite_connect ;;
        rejected <- try_except_only is_IntegrityError
                      (insert_unit name dht_pin fan_pin ;; ret None)
                      (fun _ =>
                         ret (Some (mkResponse false (Some "Unit name exists") 400))) ;;
        match rejected with
        | Some r => ret r
        | None =>
            if negb (hasattr_board dht_pin) then
              ret (mkResponse false (Some ("Invalid DHT pin: " ++ dht_pin)) 400)
            else
              print "[/units/add] Reloading units after insert..." ;;
              load_units ;;
              print "[/units/add] Reload complete." ;;
              ret (mkResponse true None 200)
        end
    end.

(** ** Setting the limits *)

(** [REPLACE INTO settings (key, value) VALUES (?, ?)] *)
Definition replace_setting (key : string) (value : option string)
    (rows : list (string * option string)) : list (string * option string) :=
  List.filter (fun kv => negb (kv.1 =? key)) rows ++ [(key, value)].

(** The handler of [/set_limit]; a missing form field is stored as NULL. *)
Definition set_limit (min_temp max_temp : option string) : M unit :=
  sqlite_connect ;;
  fun w =>
    let d := db w in
    (Returns tt,
     set_db (mkDatabase (tbl_units d) (seq_units d) (tbl_temperature_log d)
                        (tbl_email_recipients d)
                        (replace_setting "temp_spec_max" max_temp
                           (replace_setting "temp_spec_min" min_temp
                              (tbl_settings d)))) w).

(** ** The live feed *)

(** The loop over [units.items()] that fills [snapshot]. *)
Fixpoint snapshot_items (its : list (Z * RuntimeUnit))
    (snapshot : dict snapshot_entry) : M (dict snapshot_entry) :=
  match its with
  | [] => ret snapshot
  | (unit_id, unit) :: rest =>
      reading <- read_sensor unit_id ;;
      fan_on <- get_fan_status unit_id ;;
      snapshot_items rest
        (setitem unit_id
           (mkSnapshotEntry (name unit) reading.1 reading.2
                            (if fan_on then "ON" else "OFF"))
           snapshot)
  end.

(** The [with units_lock:] block of [event_stream]. *)
Definition snapshot_block : M (dict snapshot_entry) :=
  with_units_lock (fun w => snapshot_items (items (registry w)) [] w).

(** One turn of the [while True] of [event_stream] around the block that
    builds the snapshot: the chunk it yields, after the sleep that follows
    the yield. *)
Definition event_stream_turn (block : M (dict snapshot_entry)) : M string :=
  yielded <- try_except
               (snapshot <- block ;;
                ret (inl ("data: " ++ json_dumps snapshot ++ nl ++ nl)))
               (fun e =>
                  print ("[SSE] Stream error: " ++ exn_msg e) ;;
                  ret (inr ("data: {}" ++ nl ++ nl))) ;;
  match yielded with
  | inl chunk => sleep 5 ;; ret chunk
  | inr chunk => sleep 2 ;; ret chunk
  end.

(** The chunks the generator yields in its first [n] turns; it yields no
    more once a turn never returns. *)
Fixpoint event_stream_from (block : M (dict snapshot_entry)) (n : nat)
    (w : World) : list string * World :=
  match n with
  | O => ([], w)
  | S n' =>
      match event_stream_turn block w with
      | (Returns chunk, w') =>
          let (chunks, w'') := event_stream_from block n' w' in
          (chunk :: chunks, w'')
      | (_, w') => ([], w')
      end
  end.

Definition event_stream : nat -> World -> list string * World :=
  event_stream_from snapshot_block.

(** ** Reconciliation as the platform sees it

    What [load_unit] asks of the platform for one row, and the handles it
    gets when every step succeeds. *)
Definition make_handles (row : unit_row) (e : Env) : option (Sensor * Fan) * Env :=
  match board_getattr (row_dht_pin row) with
  | None => (None, e)
  | Some pin =>
      match DHT22 pin e with
      | (Error _, e1) => (None, e1)
      | (Value s, e1) =>
          match OutputDevice (row_fan_pin row) e1 with
          | (Error _, e2) => (None, e2)
          | (Value f, e2) => (Some (s, f), e2)
          end
      end
  end.

(** The state of the platform once the rows [rows] have been gone through. *)
Definition env_after (rows : list unit_row) (e : Env) : Env :=
  fold_left (fun e row => (make_handles row e).2) rows e.

(** The dictionary the loop of [load_units] builds on top of [d]. *)
Fixpoint reconcile (rows : list unit_row) (e : Env) (d : dict RuntimeUnit)
  : dict RuntimeUnit :=
  match rows with
  | [] => d
  | row :: rows' =>
      match make_handles row e with
      | (Some (s, f), e') =>
          reconcile rows' e'
            (setitem (row_id row) (mkRuntimeUnit (row_name row) s f) d)
      | (None, e') => reconcile rows' e' d
      end
  end.

(** The pin resolved and both handles were constructed. *)
Definition loads (row : unit_row) (e : Env) : Prop :=
  exists pin s e1 f e2,
    board_getattr (row_dht_pin row) = Some pin
    /\ DHT22 pin e = (Value s, e1)
    /\ OutputDevice (row_fan_pin row) e1 = (Value f, e2).


(** ** Frames

    [keeps f m]: running [m] leaves the component [f] of the world as it
    was, whatever [m] ends in.  A component is [Framed] when the platform
    state, the standard output and the lock are no part of it. *)
Definition keeps {X A} (f : World -> X) (m : M A) : Prop :=
  forall w, f (m w).2 = f w.

Class Framed {X} (f : World -> X) : Prop := {
  framed_env : forall e w, f (set_env e w) = f w;
  framed_stdout : forall s w, f (add_stdout s w) = f w;
  framed_lock : forall b w, f (set_units_lock b w) = f w
}.

(** The memory of the process: the heap, the global and their history. *)
Definition memory (w : World) :
    gmap loc (dict RuntimeUnit) * loc * list (loc * gmap loc (dict RuntimeUnit)) :=
  (heap w, units w, store_history w).

End App.

Notation "x <- c1 ;; c2" := (bind c1 (fun x => c2))
  (at level 100, c1 at next level, right associativity).
Notation "c1 ;; c2" := (bind c1 (fun _ => c2))
  (at level 100, right associativity).

(** * The other handlers and the schema script *)

(** What a handler that does not answer JSON returns: a text with its
    status, or a redirect. *)
Inductive page : Type :=
| TextPage (text : string) (code : Z)
| RedirectTo (location : string).

(** One object of the JSON list [/units] answers. *)
Record unit_json : Type := mkUnitJson {
  json_id : Z;
  json_name : string;
  json_dht_pin : string;
  json_fan_pin : Z
}.

(** Dictionaries keyed by text, as [response[str(unit_id)] = ...] fills
    one: insertion-ordered, a store under a present key replaces in place. *)
Fixpoint setitem_str {V} (k : string) (v : V) (d : list (string * V))
  : list (string * V) :=
  match d with
  | [] => [(k, v)]
  | (k', v') :: d' =>
      if k =? k' then (k, v) :: d' else (k', v') :: setitem_str k v d'
  end.

(** [fan.on()] and [fan.off()] of gpiozero, which only [set_fan] uses. *)
Class FanDriver `{Platform} : Type := {
  fan_on : Fan -> Env -> reply unit * Env;
  fan_off : Fan -> Env -> reply unit * Env
}.

Section Handlers.

Context {platform : Platform}.

(** ** Switching a fan *)

Definition set_fan `{!FanDriver} (unit_id : Z) (turn_on : bool) : M unit :=
  fan <- with_units_lock (u <- units_getitem unit_id ;; ret (fan u)) ;;
  if turn_on then call (fan_on fan) else call (fan_off fan).

(** ** Listing and removing units *)

(** The text Python prints for the rows of [list_units], for names and
    pins without quotes or characters that [repr] escapes. *)
Definition repr_row (r : unit_row) : string :=
  "(" ++ pretty (row_id r) ++ ", '" ++ row_name r ++ "', '" ++ row_dht_pin r
  ++ "', " ++ pretty (row_fan_pin r) ++ ")".

Definition repr_rows (rows : list unit_row) : string :=
  "[" ++ String.concat ", " (map repr_row rows) ++ "]".

Definition list_units : M (list unit_json) :=
  rows <- select_active_units ;;
  print ("[DEBUG] /units returned: " ++ repr_rows rows) ;;
  ret (map (fun r => mkUnitJson (row_id r) (row_name r) (row_dht_pin r)
                                (row_fan_pin r)) rows).

(** [UPDATE units SET active = 0 WHERE id=?] *)
Definition deactivate (unit_id : Z) (rows : list unit_row) : list unit_row :=
  map (fun r =>
         if (row_id r =? unit_id)%Z
         then mkUnitRow (row_id r) (row_name r) (row_dht_pin r) (row_fan_pin r) 0
         else r) rows.

Definition update_inactive (unit_id : Z) : M unit := fun w =>
  let d := db w in
  (Returns tt,
   set_db (mkDatabase (deactivate unit_id (tbl_units d)) (seq_units d)
                      (tbl_temperature_log d) (tbl_email_recipients d)
                      (tbl_settings d)) w).

Definition remove_unit (unit_id : Z) : M response :=
  (sqlite_connect ;; update_inactive unit_id) ;;
  load_units ;;
  ret (mkResponse true None 200).

(** ** Point snapshots *)

(** The loop of [get_data] over [units.items()]. *)
Fixpoint get_data_items (its : list (Z * RuntimeUnit))
    (response : list (string * snapshot_entry))
  : M (list (string * snapshot_entry)) :=
  match its with
  | [] => ret response
  | (unit_id, unit) :: rest =>
      reading <- read_sensor unit_id ;;
      fan <- get_fan_status unit_id ;;
      get_data_items rest
        (setitem_str (pretty unit_id)
           (mkSnapshotEntry (name unit) reading.1 reading.2
                            (if fan then "ON" else "OFF"))
           response)
  end.

Definition get_data : M (list (string * snapshot_entry)) :=
  with_units_lock (fun w => get_data_items (items (registry w)) [] w).

(** The arguments [index] hands to [render_template]. *)
Record index_page : Type := mkIndexPage {
  page_units : dict snapshot_entry;
  page_temp_spec_min : float;
  page_temp_spec_max : float
}.

(** The loop of [index] reads each unit as the loop of the live feed does. *)
Definition index : M index_page :=
  limits <- get_settings ;;
  data <- with_units_lock (fun w => snapshot_items (items (registry w)) [] w) ;;
  ret (mkIndexPage data (temp_spec_min limits) (temp_spec_max limits)).

(** ** Recipients *)

(** [INSERT OR IGNORE INTO email_recipients (email) VALUES (?)] and
    [DELETE FROM email_recipients WHERE email=?]; [email] is UNIQUE. *)
Definition insert_or_ignore_email (email : string) (rows : list string)
  : list string :=
  if existsb (fun e => e =? email) rows then rows else rows ++ [email].

Definition delete_email (email : string) (rows : list string) : list string :=
  List.filter (fun e => negb (e =? email)) rows.

Definition set_recipients (rows : list string) : M unit := fun w =>
  let d := db w in
  (Returns tt,
   set_db (mkDatabase (tbl_units d) (seq_units d) (tbl_temperature_log d)
                      rows (tbl_settings d)) w).

Definition manage_email (email action : option string) : M page :=
  if negb (truthy email) then ret (TextPage "Missing email" 400)
  else
    let email := default "" email in
    (sqlite_connect ;;
     fun w =>
       let rows := tbl_email_recipients (db w) in
       match action with
       | Some a =>
           if a =? "add" then
             set_recipients (insert_or_ignore_email email rows) w
           else if a =? "remove" then
             set_recipients (delete_email email rows) w
           else (Returns tt, w)
       | None => (Returns tt, w)
       end) ;;
    ret (RedirectTo "/").

(** ** The discipline of the lock

    [lockless m]: [m] does not touch [units_lock] and always returns or
    raises.  [releases m]: started with the lock free, [m] returns or raises
    and leaves the lock free. *)
Definition lockless {A} (m : M A) : Prop :=
  forall w, units_lock (m w).2 = units_lock w /\ (m w).1 ≠ Hangs.

Definition releases {A} (m : M A) : Prop :=
  forall w, units_lock w = false ->
            units_lock (m w).2 = false /\ (m w).1 ≠ Hangs.


(** The limits [get_settings] makes of the two stored values: both parsed,
    or both defaults as soon as one is NULL or is no number. *)
Definition limits_of (lo hi : option string) : settings :=
  match lo ≫= py_float, hi ≫= py_float with
  | Some x, Some y => mkSettings x y
  | _, _ => mkSettings 10 40
  end.

End Handlers.

(** ** The schema script ([init_db.py]) *)

Definition empty_database : Database := mkDatabase [] 0 [] [] [].

(** [INSERT OR IGNORE INTO settings (key,value) VALUES (?,?)] *)
Definition insert_or_ignore_setting (key value : string)
    (rows : list (string * option string)) : list (string * option string) :=
  if existsb (fun kv => kv.1 =? key) rows then rows
  else rows ++ [(key, Some value)].

(** The script run on the database file: [None] when there is no file yet
    (connecting creates it and the tables are created empty), an existing
    database of this schema otherwise (every [CREATE TABLE IF NOT EXISTS]
    then does nothing).  The defaults are inserted in the order of the
    dictionary literal. *)
Definition init_db (file : option Database) : Database :=
  let d := default empty_database file in
  mkDatabase (tbl_units d) (seq_units d) (tbl_temperature_log d)
             (tbl_email_recipients d)
             (insert_or_ignore_setting "temp_spec_max" "40"
                (insert_or_ignore_setting "temp_spec_min" "10"
                   (tbl_settings d))).

(** ** What the store may become *)

(** The store with rows appended to the log and nothing else changed. *)
Definition add_log_rows (d : Database) (rows : list log_row) : Database :=
  mkDatabase (tbl_units d) (seq_units d) (tbl_temperature_log d ++ rows)
             (tbl_email_recipients d) (tbl_settings d).

(** Ids and names of units are keys: no two rows share one. *)
Definition units_unique (d : Database) : Prop :=
  NoDup (map row_id (tbl_units d)) /\ NoDup (map row_name (tbl_units d)).

Section StoreShapes.

Context {platform : Platform}.

(** [only_logged d w']: the store of [w'] is [d] with log rows appended,
    each with a temperature; read in order, the units of the rows are a
    sublist of the keys of the registry of [w'].  So every row is of a unit
    of the registry, the rows follow the order of the registry, and no key
    of the registry accounts for more than one row. *)
Definition only_logged (d : Database) (w' : World) : Prop :=
  exists rows,
    db w' = add_log_rows d rows
    /\ map log_unit_id rows `sublist_of` keys (registry w')
    /\ Forall (fun r => is_Some (log_temperature r)) rows.

End StoreShapes.

(** ** A test bench

    A concrete platform whose answers are scripted: every kind of call
    consumes the next answer of its script.  The concrete runs and the
    instances of the theorems below are taken on it. *)
Module Bench.

Record script : Type := mkScript {
  temperatures : list (reply (option float));
  humidities : list (reply (option float));
  fan_values : list (reply Z);
  mail_results : list (reply unit);
  faults : list (option exn);
  clock : list float;
  slept : list float
}.

Definition quiet : script := mkScript [] [] [] [] [] [] [].

Definition next_temperature (s : script) : reply (option float) * script :=
  match temperatures s with
  | [] => (Value None, s)
  | r :: rest =>
      (r, mkScript rest (humidities s) (fan_values s) (mail_results s)
                   (faults s) (clock s) (slept s))
  end.

Definition next_humidity (s : script) : reply (option float) * script :=
  match humidities s with
  | [] => (Value None, s)
  | r :: rest =>
      (r, mkScript (temperatures s) rest (fan_values s) (mail_results s)
                   (faults s) (clock s) (slept s))
  end.

Definition next_fan_value (s : script) : reply Z * script :=
  match fan_values s with
  | [] => (Value 0, s)
  | r :: rest =>
      (r, mkScript (temperatures s) (humidities s) rest (mail_results s)
                   (faults s) (clock s) (slept s))
  end.

Definition next_mail_result (s : script) : reply unit * script :=
  match mail_results s with
  | [] => (Value tt, s)
  | r :: rest =>
      (r, mkScript (temperatures s) (humidities s) (fan_values s) rest
                   (faults s) (clock s) (slept s))
  end.

Definition next_fault (s : script) : option exn * script :=
  match faults s with
  | [] => (None, s)
  | r :: rest =>
      (r, mkScript (temperatures s) (humidities s) (fan_values s)
                   (mail_results s) rest (clock s) (slept s))
  end.

Definition next_time (s : script) : float * script :=
  match clock s with
  | [] => (0%float, s)
  | r :: rest =>
      (r, mkScript (temperatures s) (humidities s) (fan_values s)
                   (mail_results s) (faults s) rest (slept s))
  end.

Definition record_sleep (seconds : float) (s : script) : script :=
  mkScript (temperatures s) (humidities s) (fan_values s) (mail_results s)
           (faults s) (clock s) (slept s ++ [seconds]).

(** The board has the pins D4, D17 and D18. *)
Definition board (pin_str : string) : option Z :=
  if pin_str =? "D4" then Some 4
  else if pin_str =? "D17" then Some 17
  else if pin_str =? "D18" then Some 18
  else None.

(** A fan can be driven from the GPIO lines 0 to 27. *)
Definition output_device (n : Z) (s : script) : reply Z * script :=
  if ((0 <=? n) && (n <=? 27))%Z then (Value n, s)
  else (Error (mkExn OtherException "invalid GPIO pin"), s).

(** The values of the builtins on the inputs the runs below use:
    [round(21.4375, 2)] is the double nearest to 21.44. *)
Definition round_table (x : float) (ndigits : Z) : float :=
  if (x =? 21.4375)%float then 0x1.570a3d70a3d71p+4%float else x.

Definition float_table (text : string) : option float :=
  if text =? "10" then Some 10%float
  else if text =? "15" then Some 15%float
  else if text =? "30" then Some 30%float
  else if text =? "40" then Some 40%float
  else None.

Definition int_table (text : string) : option Z :=
  if text =? "17" then Some 17
  else if text =? "22" then Some 22
  else if text =? "27" then Some 27
  else None.

Definition float_text (x : float) : string :=
  if (x =? 45)%float then "45.0" else "?".

#[local] Instance platform : Platform := {|
  Env := script;
  Pin := Z;
  Sensor := Z;
  Fan := Z;
  board_getattr := board;
  DHT22 := fun pin s => (Value pin, s);
  OutputDevice := output_device;
  sensor_temperature := fun _ => next_temperature;
  sensor_humidity := fun _ => next_humidity;
  fan_value := fun _ => next_fan_value;
  mail_send := fun _ => next_mail_result;
  sqlite_fault := next_fault;
  time_time := next_time;
  time_sleep := record_sleep;
  py_round := round_table;
  py_float := float_table;
  py_int := int_table;
  str_float := float_text;
  json_dumps := fun d => "{...}"
|}.

(** A store with one active unit on D4 and GPIO 17, two recipients and the
    default limits of [init_db.py]. *)
Definition store : Database :=
  mkDatabase [mkUnitRow 1 "fridge" "D4" 17 1] 1 []
             ["a@x"; "b@x"]
             [("temp_spec_min", Some "10"); ("temp_spec_max", Some "40")].

(** The process right after start: [units = {}] at address 0, the lock
    free. *)
Definition boot (s : script) (d : Database) : World :=
  mkWorld s d {[ 0%nat := [] ]} 0%nat false [] [] [].

(** The same process once [load_units] has run. *)
Definition loaded (s : script) (d : Database) : World :=
  (load_units (boot s d)).2.

(** The process with its units loaded from [store], the platform about to
    follow the script [s]. *)
Definition running (s : script) : World := set_env s (loaded quiet store).

(** A store with an active unit that loads, an active unit whose pin the
    board does not have, an active unit whose fan line does not exist, and a
    unit that was removed. *)
Definition mixed_store : Database :=
  mkDatabase [mkUnitRow 1 "fridge" "D4" 17 1;
              mkUnitRow 2 "attic" "D99" 22 1;
              mkUnitRow 3 "cellar" "D17" 99 1;
              mkUnitRow 4 "shed" "D18" 18 0]
             4 [] [] [].

(** Scripts: a sensor without a temperature; a hot reading while the first
    delivery fails; a reading with no humidity; SQLite locked at the next
    access; two readings of 35 degrees; a fan whose value cannot be read. *)
Definition no_temperature : script :=
  mkScript [Value None] [Value (Some 55%float)] [] [] [] [] [].

Definition hot_and_smtp_down : script :=
  mkScript [Value (Some 45%float)] [Value (Some 30%float)] [Value 1]
           [Error (mkExn OtherException "smtp down"); Value tt] [] [] [].

Definition no_humidity : script :=
  mkScript [Value (Some 21.4375%float)] [Value None] [Value 0] [] [] [] [].

Definition database_locked : script :=
  mkScript [] [] [] [] [Some (mkExn OperationalError "database is locked")]
           [] [].

Definition two_warm_readings : script :=
  mkScript [Value (Some 35%float); Value (Some 35%float)] [] [] [] [] [] [].

Definition fan_unreadable : script :=
  mkScript [] [] [Error (mkExn OtherException "device closed")] [] [] [] [].

(** Requests to [/units/add]: a pin the board does not have, the same unit
    with a pin it has, and a name that is taken. *)
Definition attic_on_D99 : add_unit_form :=
  mkForm (Some "attic") (Some "D99") (Some "22").

Definition attic_on_D17 : add_unit_form :=
  mkForm (Some "attic") (Some "D17") (Some "22").

Definition fridge_again : add_unit_form :=
  mkForm (Some "fridge") (Some "D17") (Some "22").


(** The fans of the bench take every command. *)
#[local] Instance fan_driver : FanDriver := {|
  fan_on := fun _ s => (Value tt, s);
  fan_off := fun _ s => (Value tt, s)
|}.

(** A reading at the upper limit, with a humidity and the fan off. *)
Definition at_the_limit : script :=
  mkScript [Value (Some 40%float)] [Value (Some 50%float)] [Value 0] [] [] [] [].

(** The process with its units loaded, the lock held and not released. *)
Definition locked_out (s : script) : World :=
  set_units_lock true (running s).


End Bench.

(** * Properties *)

(** ** Dictionaries *)

Lemma keys_setitem {V} (k k' : Z) (v : V) (d : dict V) :
  k' ∈ keys (setitem k v d) ↔ k' = k ∨ k' ∈ keys d.
Proof.
  induction d as [|[k0 v0] d IH]; simpl.
  - rewrite list_elem_of_singleton. rewrite elem_of_nil. tauto.
  - destruct (Z.eqb_spec k k0) as [->|Hne]; simpl.
    + rewrite !elem_of_cons. tauto.
    + unfold keys in IH. rewrite !elem_of_cons, IH. tauto.
Qed.

Lemma getitem_setitem_same {V} (k : Z) (v : V) (d : dict V) :
  getitem k (setitem k v d) = Some v.
Proof.
  induction d as [|[k0 v0] d IH]; simpl.
  - by rewrite Z.eqb_refl.
  - destruct (Z.eqb_spec k k0) as [->|Hne]; simpl.
    + by rewrite Z.eqb_refl.
    + destruct (Z.eqb_spec k k0); [done | apply IH].
Qed.

Lemma getitem_keys {V} (k : Z) (d : dict V) :
  k ∈ keys d ↔ is_Some (getitem k d).
Proof.
  induction d as [|[k0 v0] d IH]; simpl.
  - rewrite elem_of_nil. split; [done | intros [? ?]; done].
  - rewrite elem_of_cons. destruct (Z.eqb_spec k k0) as [->|Hne]; simpl.
    + split; eauto.
    + unfold keys in IH. rewrite IH. split; [intros [?|?]; done | eauto].
Qed.

Section Properties.

Context {platform : Platform}.

(** ** Worlds *)

Lemma release_acquire (w : World) :
  units_lock w = false -> set_units_lock false (set_units_lock true w) = w.
Proof. destruct w; simpl; intros ->; reflexivity. Qed.

(** ** The loop of [load_units] *)

(** What one turn of the loop does to the world: the platform moves as
    [make_handles] says, and the new dictionary gets the unit when there
    are handles for it. *)
Lemma load_unit_run (l : loc) (row : unit_row) (w : World) :
  exists w',
    load_unit l row w = (Returns tt, w')
    /\ env w' = (make_handles row (env w)).2
    /\ db w' = db w /\ units w' = units w /\ units_lock w' = units_lock w
    /\ mail_calls w' = mail_calls w
    /\ match (make_handles row (env w)).1 with
       | Some (s, f) =>
           heap w' = <[l := setitem (row_id row)
                              (mkRuntimeUnit (row_name row) s f)
                              (deref (heap w) l)]> (heap w)
           /\ store_history w' = (store_history w ++ [(units w, heap w')])%list
       | None => heap w' = heap w /\ store_history w' = store_history w
       end.
Proof.
  unfold load_unit, make_handles, get_board_pin, bind, try_except, call, print, ret,
    dict_setitem.
  simpl.
  destruct (board_getattr (row_dht_pin row)) as [pin|]; simpl.
  - destruct (DHT22 pin (env w)) as [[s|x] e1]; simpl.
    + destruct (OutputDevice (row_fan_pin row) e1) as [[f|x] e2]; simpl.
      * eexists; repeat split.
      * eexists; repeat split.
    + eexists; repeat split.
  - eexists; repeat split.
Qed.

Lemma load_loop_run (l : loc) (rows : list unit_row) :
  forall (w : World) (d : dict RuntimeUnit),
    heap w !! l = Some d ->
    exists w',
      for_each rows (load_unit l) w = (Returns tt, w')
      /\ env w' = env_after rows (env w)
      /\ db w' = db w /\ units w' = units w /\ units_lock w' = units_lock w
      /\ mail_calls w' = mail_calls w
      /\ heap w' = <[l := reconcile rows (env w) d]> (heap w)
      /\ exists hist,
           store_history w' = (store_history w ++ hist)%list
           /\ forall r h, (r, h) ∈ hist ->
                r = units w /\ forall l', l' ≠ l -> h !! l' = heap w !! l'.
Proof.
  induction rows as [|row rows IH]; intros w d Hd; simpl.
  - exists w. repeat split; try done.
    + by rewrite insert_id.
    + exists []. split; [by rewrite app_nil_r|]. intros r h Hin.
      by apply elem_of_nil in Hin.
  - destruct (load_unit_run l row w) as (w1 & Hrun & He & Hdb & Hu & Hl & Hm & Hheap).
    unfold bind at 1. rewrite Hrun.
    unfold env_after in *. simpl.
    destruct (make_handles row (env w)) as [[[s f]|] e1] eqn:Hmk; simpl in He, Hheap |- *.
    + destruct Hheap as [Hheap Hhist].
      destruct (IH w1 (setitem (row_id row) (mkRuntimeUnit (row_name row) s f) d))
        as (w2 & Hrun2 & He2 & Hdb2 & Hu2 & Hl2 & Hm2 & Hheap2 & hist & Hhist2 & Hall).
      { rewrite Hheap. unfold deref. rewrite Hd. simpl. apply lookup_insert_eq. }
      exists w2. rewrite Hrun2. repeat split; try congruence.
      * rewrite Hheap2, Hheap, He. by rewrite insert_insert_eq.
      * exists ((units w, heap w1) :: hist). split.
        { rewrite Hhist2, Hhist. by rewrite <- app_assoc. }
        intros r h Hin. apply elem_of_cons in Hin as [Heq|Hin].
        { inversion Heq; subst. split; [done|]. intros l' Hl'.
          rewrite Hheap. by rewrite lookup_insert_ne. }
        destruct (Hall r h Hin) as [-> Hframe]. split; [done|].
        intros l' Hl'. rewrite (Hframe l' Hl'), Hheap.
        by rewrite lookup_insert_ne.
    + destruct Hheap as [Hheap Hhist].
      destruct (IH w1 d) as (w2 & Hrun2 & He2 & Hdb2 & Hu2 & Hl2 & Hm2 & Hheap2 & hist & Hhist2 & Hall).
      { by rewrite Hheap. }
      exists w2. rewrite Hrun2. repeat split; try congruence.
      exists hist. split; [congruence|].
      intros r h Hin. destruct (Hall r h Hin) as [-> Hframe].
      split; [done|]. intros l' Hl'. rewrite (Hframe l' Hl'). by rewrite Hheap.
Qed.

Lemma make_handles_loads (row : unit_row) (e : Env) :
  is_Some (make_handles row e).1 <-> loads row e.
Proof.
  unfold make_handles, loads. split.
  - destruct (board_getattr (row_dht_pin row)) as [pin|] eqn:Hp; simpl;
      [|intros [? ?]; done].
    destruct (DHT22 pin e) as [[s|x] e1] eqn:Hs; simpl; [|intros [? ?]; done].
    destruct (OutputDevice (row_fan_pin row) e1) as [[f|x] e2] eqn:Hf; simpl;
      [|intros [? ?]; done].
    intros _. exists pin, s, e1, f, e2. repeat split; assumption || reflexivity.
  - intros (pin & s & e1 & f & e2 & -> & -> & ->). simpl. eauto.
Qed.

Lemma env_after_cons (row : unit_row) (rows : list unit_row) (e : Env) :
  env_after (row :: rows) e = env_after rows (make_handles row e).2.
Proof. reflexivity. Qed.

(** The keys of the dictionary the loop builds: those it started from and
    the ids of the rows that loaded. *)
Lemma reconcile_keys (rows : list unit_row) :
  forall (e : Env) (d : dict RuntimeUnit) (k : Z),
    k ∈ keys (reconcile rows e d) <->
    k ∈ keys d \/
    exists pre row post,
      rows = (pre ++ row :: post)%list /\ row_id row = k
      /\ loads row (env_after pre e).
Proof.
  induction rows as [|row rows IH]; intros e d k; simpl.
  - split; [by left|]. intros [?|(pre & r & post & Heq & _)]; [done|].
    by destruct pre.
  - pose proof (make_handles_loads row e) as Hloads.
    destruct (make_handles row e) as [[[s f]|] e'] eqn:Hmk; simpl in Hloads.
    + rewrite IH, keys_setitem. split.
      * intros [[->|Hin]|(pre & r & post & -> & Hk & Hl)].
        -- right. exists [], row, rows. split_and!; [done|done|]. apply Hloads. eauto.
        -- by left.
        -- right. exists (row :: pre), r, post. split_and!; [done|done|].
           by rewrite env_after_cons, Hmk.
      * intros [Hin|(pre & r & post & Heq & Hk & Hl)]; [by left; right|].
        destruct pre as [|r0 pre]; simpl in Heq; inversion Heq; subst.
        -- by left; left.
        -- right. exists pre, r, post. split_and!; [done|done|].
           by rewrite env_after_cons, Hmk in Hl.
    + rewrite IH. split.
      * intros [Hin|(pre & r & post & -> & Hk & Hl)]; [by left|].
        right. exists (row :: pre), r, post. split_and!; [done|done|].
        by rewrite env_after_cons, Hmk.
      * intros [Hin|(pre & r & post & Heq & Hk & Hl)]; [by left|].
        destruct pre as [|r0 pre]; simpl in Heq; inversion Heq; subst.
        -- apply Hloads in Hl. destruct Hl; done.
        -- right. exists pre, r, post. split_and!; [done|done|].
           by rewrite env_after_cons, Hmk in Hl.
Qed.

Lemma new_dict_fresh (w : World) :
  let l := fresh (dom (heap w) ∪ {[units w]}) in
  heap w !! l = None /\ l ≠ units w.
Proof.
  intros l. pose proof (is_fresh (dom (heap w) ∪ {[units w]})) as Hfresh.
  fold l in Hfresh. split.
  - apply not_elem_of_dom. set_solver.
  - set_solver.
Qed.

(** [load_units] when the lock is free and SQLite answers: the global
    ends up denoting a new dictionary, the one [reconcile] describes. *)
Lemma load_units_run (w : World) :
  units_lock w = false ->
  (sqlite_fault (env w)).1 = None ->
  let e1 := (sqlite_fault (env w)).2 in
  let l := fresh (dom (heap w) ∪ {[units w]}) in
  let rows := active_units (db w) in
  exists w',
    load_units w = (Returns tt, w')
    /\ env w' = env_after rows e1
    /\ db w' = db w /\ units w' = l /\ units_lock w' = false
    /\ mail_calls w' = mail_calls w
    /\ heap w' = <[l := reconcile rows e1 []]> (heap w)
    /\ registry w' = reconcile rows e1 [].
Proof.
  intros Hlock Hfault e1 l rows. subst e1.
  unfold load_units, select_active_units, sqlite_connect, new_dict, bind.
  destruct (sqlite_fault (env w)) as [[x|] e1]; simpl in Hfault; [done|].
  simpl. fold l. fold rows.
  set (w1 := set_heap (<[l:=[]]> (heap w)) (set_env e1 w)).
  destruct (load_loop_run l rows w1 []) as
    (w2 & Hrun & He & Hdb & Hu & Hl & Hm & Hheap & _).
  { subst w1. simpl. apply lookup_insert_eq. }
  rewrite Hrun. unfold with_units_lock. rewrite Hl. subst w1. simpl in *.
  rewrite Hlock. eexists. split; [reflexivity|]. simpl.
  rewrite Hheap, insert_insert_eq.
  split_and!; try done.
  unfold registry, deref. simpl. by rewrite Hheap, lookup_insert_eq.
Qed.

(** ** Reconciliation *)



(** ** Running a sequence *)

Lemma bind_returns {A B} (m : M A) (k : A -> M B) (a : A) (w w' : World) :
  m w = (Returns a, w') -> bind m k w = k a w'.
Proof. intros Hm. unfold bind. by rewrite Hm. Qed.

Lemma bind_raises {A B} (m : M A) (k : A -> M B) (e : exn) (w w' : World) :
  m w = (Raises e, w') -> bind m k w = (Raises e, w').
Proof. intros Hm. unfold bind. by rewrite Hm. Qed.

(** ** Frames *)

#[local] Instance db_framed : Framed db.
Proof. by split. Qed.

#[local] Instance mail_calls_framed : Framed mail_calls.
Proof. by split. Qed.

#[local] Instance memory_framed : Framed memory.
Proof. by split. Qed.

Section Keeps.

Context {X : Type} (f : World -> X) `{!Framed f}.

Lemma keeps_ret {A} (a : A) : keeps f (ret a).
Proof. by intros w. Qed.

Lemma keeps_raise {A} (e : exn) : keeps f (@raise _ A e).
Proof. by intros w. Qed.

Lemma keeps_print (s : string) : keeps f (print s).
Proof. intros w. apply framed_stdout. Qed.

Lemma keeps_sleep (seconds : float) : keeps f (sleep seconds).
Proof. intros w. apply framed_env. Qed.

Lemma keeps_time : keeps f time.
Proof. intros w. unfold time. destruct (time_time (env w)). apply framed_env. Qed.

Lemma keeps_call {A} (op : Env -> reply A * Env) : keeps f (call op).
Proof.
  intros w. unfold call. destruct (op (env w)) as [[a|x] e]; apply framed_env.
Qed.

Lemma keeps_sqlite_connect : keeps f sqlite_connect.
Proof.
  intros w. unfold sqlite_connect.
  destruct (sqlite_fault (env w)) as [[x|] e]; apply framed_env.
Qed.

Lemma keeps_units_getitem (unit_id : Z) : keeps f (units_getitem unit_id).
Proof.
  intros w. unfold units_getitem. by destruct (getitem unit_id (registry w)).
Qed.

Lemma keeps_bind {A B} (m : M A) (k : A -> M B) :
  keeps f m -> (forall a, keeps f (k a)) -> keeps f (bind m k).
Proof.
  intros Hm Hk w. unfold bind. specialize (Hm w).
  destruct (m w) as [[a|e|] w']; simpl in *; [by rewrite Hk|done|done].
Qed.

Lemma keeps_after {A B} (m : M A) (k : A -> M B) (w : World) :
  (forall a, keeps f (k a)) -> f (bind m k w).2 = f (m w).2.
Proof.
  intros Hk. unfold bind.
  destruct (m w) as [[a|e|] w']; simpl; [apply Hk|done|done].
Qed.

Lemma keeps_try_except {A} (m : M A) (h : exn -> M A) :
  keeps f m -> (forall e, keeps f (h e)) -> keeps f (try_except m h).
Proof.
  intros Hm Hh w. unfold try_except. specialize (Hm w).
  destruct (m w) as [[a|e|] w']; simpl in *; [done|by rewrite Hh|done].
Qed.

Lemma keeps_try_except_only {A} (c : exn -> bool) (m : M A) (h : exn -> M A) :
  keeps f m -> (forall e, keeps f (h e)) -> keeps f (try_except_only c m h).
Proof.
  intros Hm Hh w. unfold try_except_only. specialize (Hm w).
  destruct (m w) as [[a|e|] w']; simpl in *; [done| |done].
  destruct (c e); [by rewrite Hh|done].
Qed.

Lemma keeps_with_units_lock {A} (body : M A) :
  keeps f body -> keeps f (with_units_lock body).
Proof.
  intros Hb w. unfold with_units_lock. destruct (units_lock w); [done|].
  specialize (Hb (set_units_lock true w)). rewrite (framed_lock (f:=f)) in Hb.
  destruct (body (set_units_lock true w)) as [[a|e|] w']; simpl in *;
    by rewrite ?(framed_lock (f:=f)).
Qed.

Lemma keeps_for_each {A} (xs : list A) (body : A -> M unit) :
  (forall x, keeps f (body x)) -> keeps f (for_each xs body).
Proof.
  intros Hb. induction xs as [|x xs IH]; simpl.
  - apply keeps_ret.
  - apply keeps_bind; [apply Hb | intros _; apply IH].
Qed.

End Keeps.

(** Goes through a piece of code built from the combinators above. *)
Ltac frame :=
  repeat first
    [ apply keeps_ret | apply keeps_raise | apply keeps_print
    | apply keeps_sleep | apply keeps_time | apply keeps_call
    | apply keeps_sqlite_connect | apply keeps_units_getitem
    | apply keeps_bind | apply keeps_try_except | apply keeps_try_except_only
    | apply keeps_with_units_lock | apply keeps_for_each
    | progress intros
    | match goal with
      | |- keeps _ (match ?x with _ => _ end) => destruct x
      end
    | solve [ intros ?; reflexivity ]
    | exact _ ].

Lemma read_sensor_keeps {X} (f : World -> X) `{!Framed f} (unit_id : Z) :
  keeps f (read_sensor unit_id).
Proof. unfold read_sensor. frame. Qed.

Lemma get_fan_status_keeps {X} (f : World -> X) `{!Framed f} (unit_id : Z) :
  keeps f (get_fan_status unit_id).
Proof. unfold get_fan_status. frame. Qed.

Lemma get_settings_keeps {X} (f : World -> X) `{!Framed f} :
  keeps f get_settings.
Proof. unfold get_settings, float_of_setting. frame. Qed.

Lemma log_data_keeps {X} (f : World -> X) `{!Framed f} unit_id temperature
    humidity fan_on :
  (forall d w, f (set_db d w) = f w) ->
  keeps f (log_data unit_id temperature humidity fan_on).
Proof.
  intros Hdb. unfold log_data. frame. intros w. unfold insert_log. apply Hdb.
Qed.

Lemma send_mail_keeps {X} (f : World -> X) `{!Framed f} (msg : Message) :
  (forall m w, f (add_mail_call m w) = f w) -> keeps f (send_mail msg).
Proof.
  intros Hmail w. unfold send_mail.
  rewrite (keeps_call f (mail_send msg) (add_mail_call msg w)). apply Hmail.
Qed.

Lemma send_email_alert_keeps {X} (f : World -> X) `{!Framed f} unit_id
    temperature :
  (forall m w, f (add_mail_call m w) = f w) ->
  keeps f (send_email_alert unit_id temperature).
Proof.
  intros Hmail. unfold send_email_alert.
  apply keeps_bind; [frame|]. intros recipients.
  destruct recipients as [|r rs]; [frame|].
  apply keeps_for_each. intros x.
  apply keeps_try_except; [|frame].
  apply keeps_bind; [by apply send_mail_keeps|frame].
Qed.

Lemma monitor_unit_keeps {X} (f : World -> X) `{!Framed f} lo hi unit_id :
  (forall d w, f (set_db d w) = f w) ->
  (forall m w, f (add_mail_call m w) = f w) ->
  keeps f (monitor_unit lo hi unit_id).
Proof.
  intros Hdb Hmail. unfold monitor_unit.
  apply keeps_bind; [by apply read_sensor_keeps|]. intros reading.
  apply keeps_bind; [by apply get_fan_status_keeps|]. intros fan_on.
  apply keeps_bind; [|intros _; by apply keeps_sleep].
  destruct reading.1 as [temp|]; [|by apply keeps_ret].
  apply keeps_bind; [by apply log_data_keeps|]. intros _.
  destruct (_ || _)%bool; [by apply send_email_alert_keeps|by apply keeps_ret].
Qed.

Lemma snapshot_block_keeps {X} (f : World -> X) `{!Framed f} :
  keeps f snapshot_block.
Proof.
  unfold snapshot_block. apply keeps_with_units_lock; [done|]. intros w.
  generalize (@nil (Z * snapshot_entry)). generalize (items (registry w)) at 1.
  intros its. revert w. induction its as [|[unit_id unit] rest IH];
    intros w snapshot; simpl; [done|].
  rewrite (keeps_bind f); [done|by apply read_sensor_keeps|]. intros reading.
  apply keeps_bind; [by apply get_fan_status_keeps|]. intros fan_on w'.
  apply IH.
Qed.

(** ** Atomic replacement of the registry *)

(** C2.  Every state of the registry that [load_units] passes through
    ([store_history] lists the global and the heap after each mutation)
    shows a reader either the whole old dictionary or the whole new one: the
    dictionary the global denoted at the start is never written to, and the
    global moves once, to the finished dictionary.  Nothing else mutates the
    registry: reading a sensor or a fan, reading the settings, logging,
    alerting, a turn of the monitoring loop over a unit and the block of the
    live feed leave the heap, the global and their history as they were. *)
Theorem load_units_atomic (w : World) :
  (exists hist,
      store_history (load_units w).2 = (store_history w ++ hist)%list
      /\ forall r h, (r, h) ∈ hist ->
           (deref h r = registry w \/ deref h r = registry (load_units w).2)
           /\ deref h (units w) = registry w)
  /\ (forall unit_id, keeps memory (read_sensor unit_id))
  /\ (forall unit_id, keeps memory (get_fan_status unit_id))
  /\ keeps memory get_settings
  /\ (forall unit_id t h fan_on, keeps memory (log_data unit_id t h fan_on))
  /\ (forall unit_id t, keeps memory (send_email_alert unit_id t))
  /\ (forall lo hi unit_id, keeps memory (monitor_unit lo hi unit_id))
  /\ keeps memory snapshot_block.
Proof.
  split; [|split_and!; intros;
           [ by apply read_sensor_keeps | by apply get_fan_status_keeps
           | by apply get_settings_keeps | by apply log_data_keeps
           | by apply send_email_alert_keeps | by apply monitor_unit_keeps
           | by apply snapshot_block_keeps ]].
  unfold load_units, select_active_units, sqlite_connect, new_dict, bind.
  destruct (sqlite_fault (env w)) as [[x|] e1]; simpl.
  { exists []. split; [by rewrite app_nil_r|]. intros r h Hin.
    by apply elem_of_nil in Hin. }
  destruct (new_dict_fresh w) as [Hnone Hne].
  set (l := fresh (dom (heap w) ∪ {[units w]})) in *.
  set (w1 := set_heap (<[l:=[]]> (heap w)) (set_env e1 w)).
  destruct (load_loop_run l (active_units (db w)) w1 []) as
    (w2 & Hrun & _ & _ & Hu & Hl & _ & Hheap & hist & Hhist & Hall).
  { subst w1. simpl. apply lookup_insert_eq. }
  rewrite Hrun. unfold with_units_lock.
  assert (forall h, (forall l', l' ≠ l -> h !! l' = heap w1 !! l') ->
                    deref h (units w) = registry w) as Hold.
  { intros h Hh. unfold registry, deref. rewrite Hh by done.
    subst w1. simpl. by rewrite lookup_insert_ne. }
  assert (forall r h, (r, h) ∈ ((units w, heap w1) :: hist) ->
            r = units w /\ deref h (units w) = registry w) as Hbefore.
  { intros r h Hin. apply elem_of_cons in Hin as [Heq|Hin].
    - inversion Heq; subst r h. split; [done|]. by apply Hold.
    - destruct (Hall r h Hin) as [-> Hframe]. split; [done|]. by apply Hold. }
  destruct (units_lock w2) eqn:Hlock2; simpl.
  - exists ((units w, heap w1) :: hist). split.
    { rewrite Hhist. subst w1. simpl. by rewrite <- app_assoc. }
    intros r h Hin. destruct (Hbefore r h Hin) as [-> Hreg]. by split; [left|].
  - exists (((units w, heap w1) :: hist) ++ [(l, heap w2)])%list. split.
    { rewrite Hhist. subst w1. simpl. by rewrite <- !app_assoc. }
    intros r h Hin. apply elem_of_app in Hin as [Hin|Hin].
    + destruct (Hbefore r h Hin) as [-> Hreg]. by split; [left|].
    + apply list_elem_of_singleton in Hin. inversion Hin; subst r h. split.
      * right. reflexivity.
      * apply Hold. intros l' Hl'. rewrite Hheap. by rewrite lookup_insert_ne.
Qed.

(** ** The monitoring loop *)

(** C3.  When [read_sensor] gives no temperature for a unit, the turn of
    the monitoring loop for that unit only reads the fan and sleeps: it
    writes no row to the log (the store is left as it was) and it does not
    run [send_email_alert] (no mail is attempted). *)
Theorem no_temperature_no_log_no_alert (min_temp max_temp : float) (unit_id : Z)
    (hum : option float) (w w1 : World) :
  read_sensor unit_id w = (Returns (None, hum), w1) ->
  monitor_unit min_temp max_temp unit_id w
    = (get_fan_status unit_id ;; sleep 2) w1
  /\ db (monitor_unit min_temp max_temp unit_id w).2 = db w
  /\ mail_calls (monitor_unit min_temp max_temp unit_id w).2 = mail_calls w.
Proof.
  intros Hread.
  assert (monitor_unit min_temp max_temp unit_id w
          = (get_fan_status unit_id ;; sleep 2) w1) as Hrun.
  { unfold monitor_unit. unfold bind at 1. rewrite Hread. simpl.
    unfold bind. destruct (get_fan_status unit_id w1) as [[b|e|] w2]; done. }
  split; [done|]. rewrite Hrun.
  assert (w1 = (read_sensor unit_id w).2) as -> by by rewrite Hread.
  split.
  - rewrite (keeps_bind db); [by apply read_sensor_keeps| |].
    + by apply get_fan_status_keeps.
    + intros _. by apply keeps_sleep.
  - rewrite (keeps_bind mail_calls); [by apply read_sensor_keeps| |].
    + by apply get_fan_status_keeps.
    + intros _. by apply keeps_sleep.
Qed.

(** ** The alert dispatcher *)

(** The loop over the recipients: one call of [mail.send] each, in order,
    whatever the transport answers; the loop always returns. *)
Lemma alert_loop_run (unit_id : Z) (temperature : float) (rs : list string) :
  forall w,
    exists w',
      for_each rs (fun recipient =>
        try_except
          (send_mail (alert_message unit_id temperature recipient) ;;
           print ("Alert email sent to " ++ recipient ++ " for unit "
                  ++ pretty unit_id))
          (fun e =>
             print ("Failed to send email to " ++ recipient ++ ": "
                    ++ exn_msg e))) w = (Returns tt, w')
      /\ mail_calls w'
         = (mail_calls w ++ map (alert_message unit_id temperature) rs)%list.
Proof.
  induction rs as [|r rs IH]; intros w; simpl.
  - exists w. by rewrite app_nil_r.
  - unfold bind at 1, try_except, send_mail, call, print.
    unfold bind at 1.
    destruct (mail_send (alert_message unit_id temperature r)
                (env (add_mail_call (alert_message unit_id temperature r) w)))
      as [[[]|x] e]; simpl.
    + match goal with |- context [for_each rs ?b ?w0] =>
        destruct (IH w0) as (w' & Hrun & Hmail) end.
      exists w'. split; [done|]. rewrite Hmail. simpl. by rewrite <- app_assoc.
    + match goal with |- context [for_each rs ?b ?w0] =>
        destruct (IH w0) as (w' & Hrun & Hmail) end.
      exists w'. split; [done|]. rewrite Hmail. simpl. by rewrite <- app_assoc.
Qed.

(** [send_email_alert] when the recipient table can be read. *)
Lemma send_email_alert_run (unit_id : Z) (temperature : float) (w : World) :
  (sqlite_fault (env w)).1 = None ->
  exists w',
    send_email_alert unit_id temperature w = (Returns tt, w')
    /\ mail_calls w'
       = (mail_calls w
          ++ map (alert_message unit_id temperature)
                 (tbl_email_recipients (db w)))%list
    /\ (tbl_email_recipients (db w) = [] ->
        w' = add_stdout ("No email recipients to alert for unit "
                         ++ pretty unit_id)
                        (set_env (sqlite_fault (env w)).2 w)).
Proof.
  intros Hfault. unfold send_email_alert, sqlite_connect.
  unfold bind at 1. unfold bind at 1.
  destruct (sqlite_fault (env w)) as [[x|] e1]; simpl in Hfault; [done|].
  simpl. destruct (tbl_email_recipients (db w)) as [|r rs] eqn:Hrs.
  - eexists. split; [reflexivity|]. simpl. by rewrite app_nil_r.
  - destruct (alert_loop_run unit_id temperature (r :: rs) (set_env e1 w))
      as (w' & Hrun & Hmail).
    exists w'. split; [exact Hrun|]. split; [exact Hmail|done].
Qed.

(** When the recipient table cannot be read, the exception leaves
    [send_email_alert]: nothing in it catches it. *)
Lemma send_email_alert_raises (unit_id : Z) (temperature : float) (w : World)
    (x : exn) :
  (sqlite_fault (env w)).1 = Some x ->
  send_email_alert unit_id temperature w
  = (Raises x, set_env (sqlite_fault (env w)).2 w).
Proof.
  intros Hfault. unfold send_email_alert, sqlite_connect.
  unfold bind at 1. unfold bind at 1.
  destruct (sqlite_fault (env w)) as [[y|] e1]; simpl in Hfault; [|done].
  by inversion Hfault.
Qed.

Lemma log_data_recipients unit_id temperature humidity fan_on (w : World) :
  tbl_email_recipients (db (log_data unit_id temperature humidity fan_on w).2)
  = tbl_email_recipients (db w).
Proof.
  unfold log_data, try_except, bind, sqlite_connect, insert_log, print.
  by destruct (sqlite_fault (env w)) as [[x|] e1].
Qed.


(** ** Adding a unit *)

Lemma name_taken (taken : string) (row : unit_row) (rows : list unit_row) :
  row ∈ rows -> row_name row = taken ->
  existsb (fun r => row_name r =? taken) rows = true.
Proof.
  intros Hin Hname. apply existsb_exists. exists row. split.
  - by apply list_elem_of_In.
  - rewrite Hname. apply String.eqb_refl.
Qed.

(** C7.  Adding a unit under a name some row of [units] already has,
    active or not, never succeeds and never touches the registry: the heap,
    the global [units] and their history, hence the registry, are as before
    the call, and so is the store.  The caller gets a response with
    [success = false] and status 400, or, when SQLite itself fails, that
    exception. *)
Theorem add_unit_duplicate_name (form : add_unit_form) (taken : string)
    (row : unit_row) (w : World) :
  form_name form = Some taken ->
  row ∈ tbl_units (db w) ->
  row_name row = taken ->
  memory (add_unit form w).2 = memory w
  /\ registry (add_unit form w).2 = registry w
  /\ db (add_unit form w).2 = db w
  /\ ((exists r, (add_unit form w).1 = Returns r
                 /\ success r = false /\ status r = 400%Z)
      \/ (exists x, (add_unit form w).1 = Raises x
                    /\ (sqlite_fault (env w)).1 = Some x)).
Proof.
  intros Hform Hin Hname.
  assert (memory (add_unit form w).2 = memory w
          /\ db (add_unit form w).2 = db w
          /\ ((exists r, (add_unit form w).1 = Returns r
                         /\ success r = false /\ status r = 400%Z)
              \/ (exists x, (add_unit form w).1 = Raises x
                            /\ (sqlite_fault (env w)).1 = Some x)))
    as (Hmem & Hdb & Hout).
  { remember (add_unit form w) as res eqn:Hres.
    unfold add_unit in Hres. rewrite Hform in Hres. simpl in Hres.
    destruct (negb _);
      [by subst res; split_and!; [..|left; eexists] |].
    destruct (py_int _) as [fan_pin|];
      [|by subst res; split_and!; [..|left; eexists]].
    unfold bind at 1 in Hres. unfold sqlite_connect in Hres.
    destruct (sqlite_fault (env w)) as [[x|] e1]; simpl in *.
    { subst res. split_and!; [done|done|]. right. by exists x. }
    unfold bind, try_except_only, insert_unit in Hres. simpl in Hres.
    rewrite (name_taken taken row) in Hres by done. simpl in Hres.
    subst res. split_and!; [done|done|]. left. by eexists. }
  split_and!; try done.
  unfold memory in Hmem. unfold registry. by inversion Hmem.
Qed.

Lemma name_free (taken : string) (rows : list unit_row) :
  (forall row, row ∈ rows -> row_name row ≠ taken) ->
  existsb (fun r => row_name r =? taken) rows = false.
Proof.
  intros Hfree. apply not_true_is_false. intros Hex.
  apply existsb_exists in Hex as (row & Hin & Heq).
  apply String.eqb_eq in Heq. apply (Hfree row); [|done].
  by apply list_elem_of_In.
Qed.

(** A well-formed request for a new name with a pin the board does not
    have: the row is inserted and committed, and then the request is
    refused. *)
Lemma add_unit_invalid_pin (unit_name dht_pin fan_text : string) (fan_pin : Z)
    (w : World) :
  unit_name ≠ "" -> dht_pin ≠ "" -> fan_text ≠ "" ->
  py_int fan_text = Some fan_pin ->
  (sqlite_fault (env w)).1 = None ->
  (forall row, row ∈ tbl_units (db w) -> row_name row ≠ unit_name) ->
  board_getattr dht_pin = None ->
  exists w',
    add_unit (mkForm (Some unit_name) (Some dht_pin) (Some fan_text)) w
    = (Returns (mkResponse false (Some ("Invalid DHT pin: " ++ dht_pin)) 400), w')
    /\ tbl_units (db w')
       = (tbl_units (db w)
          ++ [mkUnitRow (next_unit_id (db w)) unit_name dht_pin fan_pin 1])%list.
Proof.
  intros Hn Hd Hf Hint Hfault Hfree Hpin.
  unfold add_unit. simpl.
  apply String.eqb_neq in Hn, Hd, Hf. rewrite Hn, Hd, Hf, Hint. simpl.
  unfold bind at 1. unfold sqlite_connect.
  destruct (sqlite_fault (env w)) as [[x|] e1]; simpl in Hfault; [done|].
  unfold bind, try_except_only, insert_unit, hasattr_board. simpl.
  rewrite (name_free unit_name) by done. simpl. rewrite Hpin. simpl.
  eexists. split; reflexivity.
Qed.

(** ** Settings *)

Lemma settings_dict_absent (key : string) (rows : list (string * option string)) :
  (forall v, (key, v) ∉ rows) -> settings_dict rows !! key = None.
Proof.
  unfold settings_dict.
  assert (forall m : gmap string (option string),
            m !! key = None -> (forall v, (key, v) ∉ rows) ->
            foldl (fun m kv => <[kv.1 := kv.2]> m) m rows !! key = None) as H.
  { induction rows as [|[k v] rows IH]; intros m Hm Habs; simpl; [done|].
    apply IH.
    - rewrite lookup_insert_ne; [done|]. intros ->.
      apply (Habs v). by left.
    - intros v' Hin. apply (Habs v'). by right. }
  intros Habs. by apply H.
Qed.

(** [get_settings] always returns. *)
Lemma get_settings_returns (w : World) :
  exists limits w', get_settings w = (Returns limits, w').
Proof.
  unfold get_settings, try_except, bind, sqlite_connect, float_of_setting,
    print, ret, raise.
  destruct (sqlite_fault (env w)) as [[x|] e1]; simpl; [eauto|].
  destruct (settings_dict (tbl_settings (db w)) !! "temp_spec_min")
    as [[lo|]|]; simpl; [|eauto| ].
  - destruct (py_float lo); simpl; [|eauto].
    destruct (settings_dict (tbl_settings (db w)) !! "temp_spec_max")
      as [[hi|]|]; simpl; [|eauto|eauto].
    destruct (py_float hi); simpl; eauto.
  - destruct (settings_dict (tbl_settings (db w)) !! "temp_spec_max")
      as [[hi|]|]; simpl; [|eauto|eauto].
    destruct (py_float hi); simpl; eauto.
Qed.


(** ** The live feed *)

(** The handler of [event_stream]: a turn whose block raises prints the
    error, yields the empty snapshot and sleeps 2 seconds. *)
Lemma event_stream_turn_raises (block : M (dict snapshot_entry))
    (e : exn) (w w1 : World) :
  block w = (Raises e, w1) ->
  event_stream_turn block w
  = (Returns ("data: {}" ++ nl ++ nl),
     set_env (time_sleep 2 (env w1))
       (add_stdout ("[SSE] Stream error: " ++ exn_msg e) w1)).
Proof.
  intros Hblock. unfold event_stream_turn, try_except, bind.
  by rewrite Hblock.
Qed.

(** A turn in which the block returns yields its snapshot and sleeps 5
    seconds. *)
Lemma event_stream_turn_returns (block : M (dict snapshot_entry))
    (snapshot : dict snapshot_entry) (w w1 : World) :
  block w = (Returns snapshot, w1) ->
  event_stream_turn block w
  = (Returns ("data: " ++ json_dumps snapshot ++ nl ++ nl),
     set_env (time_sleep 5 (env w1)) w1).
Proof.
  intros Hblock. unfold event_stream_turn, try_except, bind.
  by rewrite Hblock.
Qed.

(** The block of [event_stream] holds [units_lock] while it calls
    [read_sensor], which takes the same lock: with a unit in the registry
    the block never returns.  It never raises. *)
Lemma snapshot_block_outcome (w : World) :
  (snapshot_block w).1
  = if units_lock w then Hangs
    else match registry w with
         | [] => Returns []
         | _ :: _ => Hangs
         end.
Proof.
  unfold snapshot_block, with_units_lock.
  destruct (units_lock w) eqn:Hlock; [done|].
  change (registry (set_units_lock true w)) with (registry w).
  destruct (registry w) as [|[unit_id unit] rest]; [done|].
  reflexivity.
Qed.

(** With a unit in the registry a turn of the stream reaches neither of its
    two [yield]s: the block stops at the [with units_lock] of [read_sensor],
    so the handler of the turn has nothing to catch. *)
Lemma event_stream_turn_stalls (w : World) :
  registry w ≠ [] ->
  (event_stream_turn snapshot_block w).1 = Hangs.
Proof.
  intros Hunits.
  unfold event_stream_turn, try_except, bind, snapshot_block, with_units_lock.
  destruct (units_lock w) eqn:Hlock; [done|].
  change (registry (set_units_lock true w)) with (registry w).
  destruct (registry w) as [|[unit_id unit] rest]; [done|].
  reflexivity.
Qed.

(** The stream then yields no chunk, however many turns it is given. *)
Lemma event_stream_stalls (n : nat) (w : World) :
  registry w ≠ [] ->
  (event_stream n w).1 = [].
Proof.
  intros Hunits. destruct n as [|n]; [done|].
  unfold event_stream. simpl.
  pose proof (event_stream_turn_stalls w Hunits) as Hturn.
  destruct (event_stream_turn snapshot_block w) as [[chunk|e|] w'];
    simpl in Hturn; done.
Qed.

(** ** Sensor readings *)


(** A reading is all or nothing: when either property of the sensor
    raises, [read_sensor] returns [(None, None)], also when the temperature
    had been read. *)
Lemma read_sensor_error (unit_id : Z) (u : RuntimeUnit) (x : exn) (w : World) :
  units_lock w = false ->
  getitem unit_id (registry w) = Some u ->
  (sensor_temperature (sensor u) (env w)).1 = Error x
  \/ (exists temperature,
        (sensor_temperature (sensor u) (env w)).1 = Value temperature
        /\ (sensor_humidity (sensor u)
              (sensor_temperature (sensor u) (env w)).2).1 = Error x) ->
  (read_sensor unit_id w).1 = Returns (None, None).
Proof.
  intros Hlock Hunit Herr.
  unfold read_sensor, with_units_lock, units_getitem, try_except, call, bind, ret,
    print.
  rewrite Hlock. simpl.
  change (registry (set_units_lock true w)) with (registry w).
  rewrite Hunit. simpl.
  destruct (sensor_temperature (sensor u) (env w)) as [[t|y] e1]; simpl in *.
  - destruct Herr as [Herr|(t' & _ & Herr)]; [done|].
    destruct (sensor_humidity (sensor u) e1) as [[h|z] e2]; simpl in *; [done|].
    by destruct (is_RuntimeError z).
  - by destruct (is_RuntimeError y).
Qed.

End Properties.

(** * Properties of the other handlers *)

Section HandlerProperties.

Context {platform : Platform}.

#[local] Existing Instance db_framed.
#[local] Existing Instance mail_calls_framed.
#[local] Existing Instance memory_framed.

(** Goes through a piece of code built from the combinators of the
    monad, as [frame] does in the section above. *)
Ltac frames :=
  repeat first
    [ apply keeps_ret | apply keeps_raise | apply keeps_print
    | apply keeps_sleep | apply keeps_time | apply keeps_call
    | apply keeps_sqlite_connect | apply keeps_units_getitem
    | apply keeps_bind | apply keeps_try_except | apply keeps_try_except_only
    | apply keeps_with_units_lock | apply keeps_for_each
    | progress intros
    | match goal with
      | |- keeps _ (match ?x with _ => _ end) => destruct x
      end
    | solve [ intros ?; reflexivity ]
    | exact _ ].

Lemma bind_hangs {A B} (m : M A) (k : A -> M B) (w w' : World) :
  m w = (Hangs, w') -> bind m k w = (Hangs, w').
Proof. intros Hm. unfold bind. by rewrite Hm. Qed.

(** [load_units] writes to the heap and to the global only. *)
Lemma load_units_keeps {X} (f : World -> X) `{!Framed f} :
  (forall h w, f (set_heap h w) = f w) ->
  (forall l w, f (set_units l w) = f w) ->
  keeps f load_units.
Proof.
  intros Hheap Hunits. unfold load_units, select_active_units.
  apply keeps_bind; [frames|]. intros results.
  apply keeps_bind; [intros w; apply Hheap|]. intros new_units.
  apply keeps_bind.
  - apply keeps_for_each. intros row. unfold load_unit, get_board_pin.
    frames. all: intros w; apply Hheap.
  - intros _. apply keeps_with_units_lock; [done|]. intros w. apply Hunits.
Qed.

(** ** Listing and removing units *)

Lemma list_units_run (w : World) :
  (sqlite_fault (env w)).1 = None ->
  (list_units w).1
  = Returns (map (fun r => mkUnitJson (row_id r) (row_name r) (row_dht_pin r)
                                      (row_fan_pin r))
                 (active_units (db w))).
Proof.
  intros Hfault.
  unfold list_units, select_active_units, sqlite_connect, bind, print, ret.
  by destruct (sqlite_fault (env w)) as [[x|] e1].
Qed.

Lemma deactivate_ids (unit_id : Z) (rows : list unit_row) :
  map row_id (deactivate unit_id rows) = map row_id rows
  /\ map row_name (deactivate unit_id rows) = map row_name rows.
Proof.
  unfold deactivate. rewrite !map_map. split; apply map_ext; intros r;
    by destruct (row_id r =? unit_id)%Z.
Qed.

Lemma active_units_deactivate (unit_id : Z) (d : Database) (rows : list unit_row) :
  rows = deactivate unit_id (tbl_units d) ->
  List.filter (fun r => (row_active r =? 1)%Z) rows
  = List.filter (fun r => negb (row_id r =? unit_id)%Z) (active_units d).
Proof.
  intros ->. unfold active_units, deactivate.
  induction (tbl_units d) as [|r rows IH]; simpl; [done|].
  destruct (row_id r =? unit_id)%Z eqn:Hid; simpl.
  - destruct (row_active r =? 1)%Z; simpl; rewrite ?Hid; simpl; apply IH.
  - destruct (row_active r =? 1)%Z; simpl; rewrite ?Hid; simpl;
      by rewrite IH.
Qed.

(** What [remove_unit] leaves in the store, whatever the reload that
    follows does. *)
Lemma remove_unit_db (unit_id : Z) (w : World) :
  (sqlite_fault (env w)).1 = None ->
  db (remove_unit unit_id w).2
  = mkDatabase (deactivate unit_id (tbl_units (db w))) (seq_units (db w))
               (tbl_temperature_log (db w)) (tbl_email_recipients (db w))
               (tbl_settings (db w)).
Proof.
  intros Hfault. unfold remove_unit.
  rewrite (keeps_after db); [|intros _].
  - unfold bind, sqlite_connect, update_inactive.
    by destruct (sqlite_fault (env w)) as [[x|] e1].
  - apply keeps_bind; [by apply load_units_keeps|]. intros _.
    by apply keeps_ret.
Qed.

(** X2.  Removing a unit is a soft delete: the row stays in [units] with
    [active = 0], no row is deleted or renamed, every other row and the
    other tables (the log rows of the unit among them) are as before, and
    [/units] afterwards lists the units it listed before without the
    removed one. *)
Theorem remove_unit_soft_delete (unit_id : Z) (w : World) :
  (sqlite_fault (env w)).1 = None ->
  let d' := db (remove_unit unit_id w).2 in
  map row_id (tbl_units d') = map row_id (tbl_units (db w))
  /\ map row_name (tbl_units d') = map row_name (tbl_units (db w))
  /\ (forall r, r ∈ tbl_units d' -> row_id r = unit_id -> row_active r = 0%Z)
  /\ (forall r, row_id r ≠ unit_id -> r ∈ tbl_units d' <-> r ∈ tbl_units (db w))
  /\ tbl_temperature_log d' = tbl_temperature_log (db w)
  /\ tbl_email_recipients d' = tbl_email_recipients (db w)
  /\ tbl_settings d' = tbl_settings (db w)
  /\ forall v : World,
       db v = d' -> (sqlite_fault (env v)).1 = None ->
       (list_units v).1
       = Returns
           (map (fun r => mkUnitJson (row_id r) (row_name r) (row_dht_pin r)
                                     (row_fan_pin r))
              (List.filter (fun r => negb (row_id r =? unit_id)%Z)
                           (active_units (db w)))).
Proof.
  intros Hfault d'. subst d'. rewrite (remove_unit_db unit_id w Hfault). simpl.
  destruct (deactivate_ids unit_id (tbl_units (db w))) as [Hids Hnames].
  split_and!; try done.
  - intros r Hin Hid. unfold deactivate in Hin.
    apply list_elem_of_fmap in Hin as (r0 & -> & Hin0).
    destruct (row_id r0 =? unit_id)%Z eqn:Heq; [done|].
    apply Z.eqb_neq in Heq. by simpl in Hid.
  - intros r Hne. unfold deactivate. rewrite list_elem_of_fmap. split.
    + intros (r0 & -> & Hin0).
      destruct (row_id r0 =? unit_id)%Z eqn:Heq; [|done].
      apply Z.eqb_eq in Heq. by simpl in Hne.
    + intros Hin. exists r. split; [|done].
      apply Z.eqb_neq in Hne. by rewrite Hne.
  - intros v Hdb Hfaultv. rewrite (list_units_run v Hfaultv). f_equal. f_equal.
    rewrite Hdb. unfold active_units at 1. simpl.
    by apply (active_units_deactivate unit_id (db w)).
Qed.

(** X3.  When [remove_unit] goes through (the lock free, SQLite answering
    the UPDATE and the SELECT), it answers [success] for every id, also one
    no row has, and the registry it leaves has no entry for that id: its
    keys are ids of rows that were active before and differ from it. *)
Theorem remove_unit_registry (unit_id : Z) (w : World) :
  units_lock w = false ->
  (sqlite_fault (env w)).1 = None ->
  (sqlite_fault (sqlite_fault (env w)).2).1 = None ->
  exists w',
    remove_unit unit_id w = (Returns (mkResponse true None 200), w')
    /\ (unit_id ∉ keys (registry w'))
    /\ forall k, k ∈ keys (registry w') ->
         k ≠ unit_id
         /\ exists row, row ∈ tbl_units (db w) /\ row_id row = k
                        /\ row_active row = 1%Z.
Proof.
  intros Hlock Hf1 Hf2.
  set (w1 := (bind sqlite_connect (fun _ => update_inactive unit_id) w).2).
  assert (bind sqlite_connect (fun _ => update_inactive unit_id) w
          = (Returns tt, w1)) as Hupd.
  { subst w1. unfold bind, sqlite_connect, update_inactive.
    by destruct (sqlite_fault (env w)) as [[x|] e1]. }
  assert (env w1 = (sqlite_fault (env w)).2
          /\ units_lock w1 = false
          /\ tbl_units (db w1) = deactivate unit_id (tbl_units (db w)))
    as (Henv & Hlock1 & Hrows).
  { subst w1. unfold bind, sqlite_connect, update_inactive.
    by destruct (sqlite_fault (env w)) as [[x|] e1]. }
  assert ((sqlite_fault (env w1)).1 = None) as Hf by by rewrite Henv.
  destruct (load_units_run w1 Hlock1 Hf) as
    (w' & Hrun & _ & _ & _ & _ & _ & _ & Hreg).
  assert (forall k, k ∈ keys (registry w') ->
            k ≠ unit_id
            /\ exists row, row ∈ tbl_units (db w) /\ row_id row = k
                           /\ row_active row = 1%Z) as Hkeys.
  { intros k Hin. rewrite Hreg in Hin.
    apply reconcile_keys in Hin as [Hin|(pre & row & post & Heq & Hk & _)];
      [by apply elem_of_nil in Hin|].
    assert (In row (List.filter (fun r => negb (row_id r =? unit_id)%Z)
                                (active_units (db w)))) as Hrow.
    { rewrite <- (active_units_deactivate unit_id (db w) (tbl_units (db w1)))
        by done.
      fold (active_units (db w1)). rewrite Heq. apply in_or_app. right. by left. }
    apply filter_In in Hrow as [Hact Hne].
    apply filter_In in Hact as [Hrow Hact].
    apply negb_true_iff, Z.eqb_neq in Hne. split; [congruence|].
    exists row. split_and!; [by apply list_elem_of_In|done|by apply Z.eqb_eq]. }
  exists w'. split_and!.
  - unfold remove_unit. rewrite (bind_returns _ _ _ _ _ Hupd).
    by rewrite (bind_returns _ _ _ _ _ Hrun).
  - intros Hin. by destruct (Hkeys unit_id Hin).
  - done.
Qed.

(** ** The lock *)

Lemma lockless_ret {A} (a : A) : lockless (ret a).
Proof. by intros w. Qed.

Lemma lockless_raise {A} (e : exn) : lockless (@raise _ A e).
Proof. by intros w. Qed.

Lemma lockless_print (s : string) : lockless (print s).
Proof. by intros w. Qed.

Lemma lockless_sleep (seconds : float) : lockless (sleep seconds).
Proof. by intros w. Qed.

Lemma lockless_time : lockless time.
Proof. intros w. unfold time. by destruct (time_time (env w)). Qed.

Lemma lockless_call {A} (op : Env -> reply A * Env) : lockless (call op).
Proof. intros w. unfold call. by destruct (op (env w)) as [[a|x] e]. Qed.

Lemma lockless_sqlite_connect : lockless sqlite_connect.
Proof.
  intros w. unfold sqlite_connect.
  by destruct (sqlite_fault (env w)) as [[x|] e].
Qed.

Lemma lockless_units_getitem (unit_id : Z) : lockless (units_getitem unit_id).
Proof.
  intros w. unfold units_getitem. by destruct (getitem unit_id (registry w)).
Qed.

Lemma lockless_bind {A B} (m : M A) (k : A -> M B) :
  lockless m -> (forall a, lockless (k a)) -> lockless (bind m k).
Proof.
  intros Hm Hk w. unfold bind. destruct (Hm w) as [Hl Hh].
  destruct (m w) as [[a|e|] w']; simpl in *; [|done|done].
  destruct (Hk a w') as [Hl' Hh']. split; [congruence|done].
Qed.

Lemma lockless_try_except {A} (m : M A) (h : exn -> M A) :
  lockless m -> (forall e, lockless (h e)) -> lockless (try_except m h).
Proof.
  intros Hm Hh w. unfold try_except. destruct (Hm w) as [Hl Hn].
  destruct (m w) as [[a|e|] w']; simpl in *; [done| |done].
  destruct (Hh e w') as [Hl' Hn']. split; [congruence|done].
Qed.

Lemma lockless_try_except_only {A} (c : exn -> bool) (m : M A) (h : exn -> M A) :
  lockless m -> (forall e, lockless (h e)) -> lockless (try_except_only c m h).
Proof.
  intros Hm Hh w. unfold try_except_only. destruct (Hm w) as [Hl Hn].
  destruct (m w) as [[a|e|] w']; simpl in *; [done| |done].
  destruct (c e); [|done].
  destruct (Hh e w') as [Hl' Hn']. split; [congruence|done].
Qed.

Lemma lockless_for_each {A} (xs : list A) (body : A -> M unit) :
  (forall x, lockless (body x)) -> lockless (for_each xs body).
Proof.
  intros Hb. induction xs as [|x xs IH]; simpl.
  - apply lockless_ret.
  - apply lockless_bind; [apply Hb | intros _; apply IH].
Qed.

Lemma lockless_releases {A} (m : M A) : lockless m -> releases m.
Proof. intros Hm w Hlock. destruct (Hm w) as [Hl Hh]. split; congruence. Qed.

Lemma releases_bind {A B} (m : M A) (k : A -> M B) :
  releases m -> (forall a, releases (k a)) -> releases (bind m k).
Proof.
  intros Hm Hk w Hlock. unfold bind. destruct (Hm w Hlock) as [Hl Hh].
  destruct (m w) as [[a|e|] w']; simpl in *; [|done|done].
  by apply Hk.
Qed.

Lemma releases_try_except {A} (m : M A) (h : exn -> M A) :
  releases m -> (forall e, releases (h e)) -> releases (try_except m h).
Proof.
  intros Hm Hh w Hlock. unfold try_except. destruct (Hm w Hlock) as [Hl Hn].
  destruct (m w) as [[a|e|] w']; simpl in *; [done| |done].
  by apply Hh.
Qed.

Lemma releases_for_each {A} (xs : list A) (body : A -> M unit) :
  (forall x, releases (body x)) -> releases (for_each xs body).
Proof.
  intros Hb. induction xs as [|x xs IH]; simpl.
  - apply lockless_releases, lockless_ret.
  - apply releases_bind; [apply Hb | intros _; apply IH].
Qed.

(** A block under [with units_lock] that takes no lock itself ends with
    the lock released, whether it returns or raises. *)
Lemma releases_with_units_lock {A} (body : M A) :
  lockless body -> releases (with_units_lock body).
Proof.
  intros Hb w Hlock. unfold with_units_lock. rewrite Hlock.
  destruct (Hb (set_units_lock true w)) as [Hl Hh].
  by destruct (body (set_units_lock true w)) as [[a|e|] w'].
Qed.

(** Goes through a piece of code that takes no lock. *)
Ltac lockfree :=
  repeat first
    [ apply lockless_ret | apply lockless_raise | apply lockless_print
    | apply lockless_sleep | apply lockless_time | apply lockless_call
    | apply lockless_sqlite_connect | apply lockless_units_getitem
    | apply lockless_bind | apply lockless_try_except
    | apply lockless_try_except_only | apply lockless_for_each
    | progress intros
    | match goal with
      | |- lockless (match ?x with _ => _ end) => destruct x
      end
    | solve [ intros ?; split; [reflexivity|discriminate] ] ].

Lemma get_settings_lockless : lockless get_settings.
Proof. unfold get_settings, float_of_setting. lockfree. Qed.

Lemma log_data_lockless unit_id temperature humidity fan_on :
  lockless (log_data unit_id temperature humidity fan_on).
Proof. unfold log_data, insert_log. lockfree. Qed.

Lemma send_email_alert_lockless unit_id temperature :
  lockless (send_email_alert unit_id temperature).
Proof.
  unfold send_email_alert. apply lockless_bind; [lockfree|].
  intros rs. destruct rs as [|r rs]; [lockfree|].
  apply lockless_for_each. intros x. apply lockless_try_except; [|lockfree].
  apply lockless_bind; [|lockfree].
  intros w. unfold send_mail.
  destruct (lockless_call (mail_send (alert_message unit_id temperature x))
              (add_mail_call (alert_message unit_id temperature x) w))
    as [Hl Hh].
  split; [by rewrite Hl|done].
Qed.

Lemma read_sensor_releases unit_id : releases (read_sensor unit_id).
Proof.
  unfold read_sensor. apply releases_bind.
  - apply releases_with_units_lock. lockfree.
  - intros s. apply lockless_releases. lockfree.
Qed.

Lemma get_fan_status_releases unit_id : releases (get_fan_status unit_id).
Proof. unfold get_fan_status. apply releases_with_units_lock. lockfree. Qed.

Lemma load_units_releases : releases load_units.
Proof.
  unfold load_units, select_active_units.
  apply releases_bind; [apply lockless_releases; lockfree|]. intros results.
  apply releases_bind; [apply lockless_releases; lockfree|]. intros new_units.
  apply releases_bind.
  - apply lockless_releases, lockless_for_each. intros row.
    unfold load_unit, get_board_pin, dict_setitem. lockfree.
  - intros _. apply releases_with_units_lock. lockfree.
Qed.

Lemma monitor_unit_releases lo hi unit_id : releases (monitor_unit lo hi unit_id).
Proof.
  unfold monitor_unit.
  apply releases_bind; [apply read_sensor_releases|]. intros reading.
  apply releases_bind; [apply get_fan_status_releases|]. intros fan_on.
  apply releases_bind; [|intros _; apply lockless_releases, lockless_sleep].
  apply lockless_releases. destruct reading.1 as [temp|]; [|apply lockless_ret].
  apply lockless_bind; [apply log_data_lockless|]. intros _.
  destruct (_ || _)%bool; [apply send_email_alert_lockless|apply lockless_ret].
Qed.

Lemma monitor_cycle_releases last_reload : releases (monitor_cycle last_reload).
Proof.
  unfold monitor_cycle.
  apply releases_bind; [apply lockless_releases, lockless_time|]. intros now.
  apply releases_bind.
  { destruct (60 <? now - last_reload)%float.
    - apply releases_bind; [apply load_units_releases|]. intros _.
      apply lockless_releases, lockless_ret.
    - apply lockless_releases, lockless_ret. }
  intros last. apply releases_bind;
    [apply lockless_releases, get_settings_lockless|]. intros limits.
  apply releases_bind; [apply releases_with_units_lock; lockfree|].
  intros unit_ids. apply releases_bind.
  - apply releases_for_each. intros x. apply monitor_unit_releases.
  - intros _. apply lockless_releases. lockfree.
Qed.

Lemma add_unit_releases form : releases (add_unit form).
Proof.
  unfold add_unit.
  destruct (negb _); [apply lockless_releases, lockless_ret|].
  destruct (py_int _) as [fan_pin|]; [|apply lockless_releases, lockless_ret].
  apply releases_bind; [apply lockless_releases, lockless_sqlite_connect|].
  intros _. apply releases_bind.
  { apply lockless_releases, lockless_try_except_only; [|lockfree].
    apply lockless_bind; [|lockfree]. intros w. unfold insert_unit.
    by destruct (existsb _ _). }
  intros [r|]; [apply lockless_releases, lockless_ret|].
  destruct (negb _); [apply lockless_releases, lockless_ret|].
  apply releases_bind; [apply lockless_releases, lockless_print|]. intros _.
  apply releases_bind; [apply load_units_releases|]. intros _.
  apply lockless_releases. lockfree.
Qed.

Lemma remove_unit_releases unit_id : releases (remove_unit unit_id).
Proof.
  unfold remove_unit, update_inactive.
  apply releases_bind; [apply lockless_releases; lockfree|]. intros _.
  apply releases_bind; [apply load_units_releases|]. intros _.
  apply lockless_releases, lockless_ret.
Qed.

Lemma manage_email_lockless email action : lockless (manage_email email action).
Proof.
  unfold manage_email. destruct (negb _); [apply lockless_ret|].
  apply lockless_bind; [|lockfree].
  apply lockless_bind; [apply lockless_sqlite_connect|]. intros _ w.
  destruct action as [a|]; [|done].
  destruct (a =? "add"); [done|]. by destruct (a =? "remove").
Qed.

(** X4.  Started with [units_lock] free, a turn of the monitoring loop
    (and so any number of turns), [add_unit], [remove_unit], [read_sensor]
    and [get_fan_status] never wait for ever and end with the lock free,
    also when they raise; [list_units], [set_limit], [manage_email] and
    [get_settings] do not touch the lock at all. *)
Theorem lock_is_released :
  (forall last_reload, releases (monitor_cycle last_reload))
  /\ (forall n last_reload, releases (monitor_loop_from n last_reload))
  /\ (forall form, releases (add_unit form))
  /\ (forall unit_id, releases (remove_unit unit_id))
  /\ (forall unit_id, releases (read_sensor unit_id))
  /\ (forall unit_id, releases (get_fan_status unit_id))
  /\ releases load_units
  /\ lockless list_units
  /\ (forall min_temp max_temp, lockless (set_limit min_temp max_temp))
  /\ (forall email action, lockless (manage_email email action))
  /\ lockless get_settings.
Proof.
  split_and!.
  - apply monitor_cycle_releases.
  - intros n. induction n as [|n IH]; intros last_reload; simpl.
    + apply lockless_releases, lockless_ret.
    + apply releases_bind; [apply monitor_cycle_releases|]. intros l. apply IH.
  - apply add_unit_releases.
  - apply remove_unit_releases.
  - apply read_sensor_releases.
  - apply get_fan_status_releases.
  - apply load_units_releases.
  - unfold list_units, select_active_units. lockfree.
  - intros min_temp max_temp. unfold set_limit. lockfree.
  - apply manage_email_lockless.
  - apply get_settings_lockless.
Qed.

(** ** Point snapshots *)

Lemma locked_read_sensor_hangs (unit_id : Z) (w : World) :
  units_lock w = true -> read_sensor unit_id w = (Hangs, w).
Proof.
  intros Hlock. unfold read_sensor, bind, with_units_lock. by rewrite Hlock.
Qed.

Lemma get_data_run (w : World) :
  get_data w
  = if units_lock w then (Hangs, w)
    else match registry w with
         | [] => (Returns [], w)
         | _ :: _ => (Hangs, set_units_lock true w)
         end.
Proof.
  unfold get_data, with_units_lock.
  destruct (units_lock w) eqn:Hlock; [done|].
  change (registry (set_units_lock true w)) with (registry w).
  destruct (registry w) as [|[unit_id unit] rest]; simpl.
  - by rewrite release_acquire.
  - reflexivity.
Qed.

Lemma index_block_run (w : World) :
  with_units_lock (fun w => snapshot_items (items (registry w)) [] w) w
  = if units_lock w then (Hangs, w)
    else match registry w with
         | [] => (Returns [], w)
         | _ :: _ => (Hangs, set_units_lock true w)
         end.
Proof.
  unfold with_units_lock.
  destruct (units_lock w) eqn:Hlock; [done|].
  change (registry (set_units_lock true w)) with (registry w).
  destruct (registry w) as [|[unit_id unit] rest]; simpl.
  - by rewrite release_acquire.
  - reflexivity.
Qed.

#[local] Instance registry_framed : Framed registry.
Proof. by split. Qed.

(** X5.  The point snapshots [/data] and [/] hold [units_lock] around
    their loop and call [read_sensor] inside it, which takes the same lock:
    with a unit in the registry they never answer, and the lock stays held.
    With no unit they answer an empty mapping ([/] after reading the
    limits). *)
Theorem point_snapshots_hang (w : World) :
  units_lock w = false ->
  match registry w with
  | [] =>
      get_data w = (Returns [], w)
      /\ exists limits,
           (get_settings w).1 = Returns limits
           /\ index w
              = (Returns (mkIndexPage [] (temp_spec_min limits)
                                      (temp_spec_max limits)),
                 (get_settings w).2)
  | _ :: _ =>
      get_data w = (Hangs, set_units_lock true w)
      /\ index w = (Hangs, set_units_lock true (get_settings w).2)
  end.
Proof.
  intros Hlock.
  destruct (get_settings_returns w) as (limits & w1 & Hset).
  pose proof (get_settings_keeps registry w) as Hreg.
  destruct (get_settings_lockless w) as [Hl _].
  rewrite Hset in Hreg, Hl. simpl in Hreg, Hl. rewrite Hlock in Hl.
  assert (index w
          = bind (with_units_lock
                    (fun w => snapshot_items (items (registry w)) [] w))
                 (fun data => ret (mkIndexPage data (temp_spec_min limits)
                                               (temp_spec_max limits))) w1)
    as Hindex.
  { unfold index. by rewrite (bind_returns _ _ _ _ _ Hset). }
  rewrite Hindex, get_data_run, Hlock, Hset. simpl.
  unfold bind. rewrite index_block_run, Hl, Hreg.
  destruct (registry w) as [|item rest]; [|done].
  split; [done|]. by exists limits.
Qed.

Lemma bind_stuck {A B} (m : M A) (k : A -> M B) (w : World) :
  (forall a, (m w).1 ≠ Returns a) ->
  (bind m k w).2 = (m w).2 /\ forall b, (bind m k w).1 ≠ Returns b.
Proof.
  intros Hm. unfold bind.
  destruct (m w) as [[a|e|] w']; simpl in *; [by destruct (Hm a)|done|done].
Qed.

(** With the lock held, [load_units] builds its dictionary and then waits
    for the lock (or raises at the SELECT): the registry stays as it is. *)
Lemma load_units_held (w : World) :
  units_lock w = true ->
  (forall a, (load_units w).1 ≠ Returns a)
  /\ registry (load_units w).2 = registry w.
Proof.
  intros Hlock.
  unfold load_units, select_active_units, sqlite_connect, new_dict, bind.
  destruct (sqlite_fault (env w)) as [[x|] e1]; simpl; [done|].
  destruct (new_dict_fresh w) as [Hnone Hne].
  set (l := fresh (dom (heap w) ∪ {[units w]})) in *.
  set (w1 := set_heap (<[l:=[]]> (heap w)) (set_env e1 w)).
  destruct (load_loop_run l (active_units (db w)) w1 []) as
    (w2 & Hrun & _ & _ & Hu & Hl & _ & Hheap & _).
  { subst w1. simpl. apply lookup_insert_eq. }
  rewrite Hrun. unfold with_units_lock. rewrite Hl. subst w1. simpl in *.
  rewrite Hlock. simpl. split; [done|].
  unfold registry, deref. rewrite Hu, Hheap.
  by rewrite !lookup_insert_ne.
Qed.

(** X6.  While [units_lock] is held and not released (as a point snapshot
    that waits for ever leaves it), a turn of the monitoring loop never
    completes: it writes no log row, sends no mail and does not replace the
    registry. *)
Theorem held_lock_stops_monitoring (last_reload : float) (w : World) :
  units_lock w = true ->
  (forall a, (monitor_cycle last_reload w).1 ≠ Returns a)
  /\ db (monitor_cycle last_reload w).2 = db w
  /\ mail_calls (monitor_cycle last_reload w).2 = mail_calls w
  /\ registry (monitor_cycle last_reload w).2 = registry w.
Proof.
  intros Hlock.
  remember (monitor_cycle last_reload w) as res eqn:Hres.
  unfold monitor_cycle, time in Hres. unfold bind at 1 in Hres.
  destruct (time_time (env w)) as [now e1]. cbv beta iota zeta in Hres.
  set (w0 := set_env e1 w) in Hres.
  assert (units_lock w0 = true) as Hlock0 by done.
  destruct (60 <? now - last_reload)%float.
  - subst res.
    destruct (load_units_held w0 Hlock0) as [Hstuck Hreg].
    destruct (bind_stuck load_units (fun _ => ret now) w0 Hstuck)
      as [Hw Hstuck'].
    match goal with |- context [bind (bind load_units ?r) ?k w0] =>
      destruct (bind_stuck (bind load_units r) k w0 Hstuck') as [Hw' Hstuck'']
    end.
    rewrite Hw', Hw.
    split_and!; [done| | |done].
    + by rewrite (load_units_keeps db).
    + by rewrite (load_units_keeps mail_calls).
  - destruct (get_settings_returns w0) as (limits & w1 & Hset).
    pose proof (get_settings_keeps db w0) as Hdb.
    pose proof (get_settings_keeps mail_calls w0) as Hmail.
    pose proof (get_settings_keeps registry w0) as Hreg.
    destruct (get_settings_lockless w0) as [Hl _].
    rewrite Hset in Hdb, Hmail, Hreg, Hl. simpl in Hdb, Hmail, Hreg, Hl.
    assert (units_lock w1 = true) as Hlock1 by congruence.
    assert (res = (Hangs, w1)) as ->.
    { rewrite Hres. unfold bind at 1. unfold ret at 1.
      rewrite (bind_returns _ _ _ _ _ Hset).
      unfold bind at 1, with_units_lock. by rewrite Hlock1. }
    simpl. by split_and!.
Qed.

(** ** Limits *)

Lemma settings_dict_filter (key k : string) (rows : list (string * option string)) :
  k ≠ key ->
  settings_dict (List.filter (fun kv => negb (kv.1 =? key)) rows) !! k
  = settings_dict rows !! k.
Proof.
  intros Hne. unfold settings_dict.
  assert (forall m m' : gmap string (option string),
            m !! k = m' !! k ->
            foldl (fun m kv => <[kv.1 := kv.2]> m) m
                  (List.filter (fun kv => negb (kv.1 =? key)) rows) !! k
            = foldl (fun m kv => <[kv.1 := kv.2]> m) m' rows !! k) as H.
  { induction rows as [|[k0 v0] rows IH]; intros m m' Hm; simpl; [done|].
    destruct (String.eqb_spec k0 key) as [->|Hk0]; simpl.
    - apply IH. by rewrite lookup_insert_ne.
    - apply IH. destruct (decide (k0 = k)) as [->|Hk].
      + by rewrite !lookup_insert_eq.
      + by rewrite !lookup_insert_ne. }
  by apply H.
Qed.

Lemma settings_dict_replace (key k : string) (value : option string)
    (rows : list (string * option string)) :
  settings_dict (replace_setting key value rows) !! k
  = if decide (k = key) then Some value else settings_dict rows !! k.
Proof.
  unfold replace_setting, settings_dict. rewrite foldl_snoc. simpl.
  destruct (decide (k = key)) as [->|Hne].
  - by rewrite lookup_insert_eq.
  - rewrite lookup_insert_ne by done. by apply settings_dict_filter.
Qed.

Lemma get_settings_stored (lo hi : option string) (w : World) :
  (sqlite_fault (env w)).1 = None ->
  settings_dict (tbl_settings (db w)) !! "temp_spec_min" = Some lo ->
  settings_dict (tbl_settings (db w)) !! "temp_spec_max" = Some hi ->
  (get_settings w).1 = Returns (limits_of lo hi).
Proof.
  intros Hfault Hlo Hhi.
  unfold get_settings, try_except, bind, sqlite_connect, float_of_setting,
    print, ret, raise, limits_of.
  destruct (sqlite_fault (env w)) as [[x|] e1]; simpl in Hfault; [done|].
  simpl. rewrite Hlo, Hhi.
  destruct lo as [lo|]; simpl; [|done].
  destruct (py_float lo) as [x|]; simpl; [|done].
  destruct hi as [hi|]; simpl; [|done].
  by destruct (py_float hi) as [y|].
Qed.

(** X7.  What [/set_limit] stores is what [get_settings] reads back: the
    two values parsed by [float], when both fields were sent and both are
    numbers; as soon as one field is missing (stored as NULL) or is no
    number, [get_settings] answers 10 and 40 for both limits, also for the
    one that was a number.  The other tables are untouched. *)
Theorem set_limit_round_trip (min_temp max_temp : option string) (w : World) :
  (sqlite_fault (env w)).1 = None ->
  let d' := db (set_limit min_temp max_temp w).2 in
  tbl_units d' = tbl_units (db w)
  /\ tbl_temperature_log d' = tbl_temperature_log (db w)
  /\ tbl_email_recipients d' = tbl_email_recipients (db w)
  /\ forall v : World,
       db v = d' -> (sqlite_fault (env v)).1 = None ->
       (get_settings v).1
       = Returns (match min_temp ≫= py_float, max_temp ≫= py_float with
                  | Some x, Some y => mkSettings x y
                  | _, _ => mkSettings 10 40
                  end).
Proof.
  intros Hfault d'.
  assert (d' = mkDatabase (tbl_units (db w)) (seq_units (db w))
                 (tbl_temperature_log (db w)) (tbl_email_recipients (db w))
                 (replace_setting "temp_spec_max" max_temp
                    (replace_setting "temp_spec_min" min_temp
                       (tbl_settings (db w))))) as ->.
  { subst d'. unfold set_limit, bind, sqlite_connect.
    by destruct (sqlite_fault (env w)) as [[x|] e1]. }
  simpl. split_and!; try done.
  intros v Hdb Hfaultv.
  apply (get_settings_stored min_temp max_temp v Hfaultv); rewrite Hdb; simpl.
  - rewrite settings_dict_replace. destruct (decide _) as [Heq|_]; [done|].
    rewrite settings_dict_replace. by destruct (decide _).
  - rewrite settings_dict_replace. by destruct (decide _).
Qed.

(** ** Recipients *)

Lemma insert_or_ignore_email_elem (email x : string) (rows : list string) :
  x ∈ insert_or_ignore_email email rows <-> x = email \/ x ∈ rows.
Proof.
  unfold insert_or_ignore_email.
  destruct (existsb (fun e => e =? email) rows) eqn:Hex.
  - apply existsb_exists in Hex as (e & Hin & Heq).
    apply String.eqb_eq in Heq. subst e. apply list_elem_of_In in Hin.
    split; [by right|]. by intros [->|?].
  - rewrite elem_of_app, list_elem_of_singleton. tauto.
Qed.

Lemma insert_or_ignore_email_NoDup (email : string) (rows : list string) :
  NoDup rows -> NoDup (insert_or_ignore_email email rows).
Proof.
  intros Hnd. unfold insert_or_ignore_email.
  destruct (existsb (fun e => e =? email) rows) eqn:Hex; [done|].
  apply NoDup_app. split_and!; [done| |apply NoDup_singleton].
  intros x Hin Hx. apply list_elem_of_singleton in Hx. subst x.
  apply not_true_iff_false in Hex. apply Hex, existsb_exists.
  exists email. split; [by apply list_elem_of_In|apply String.eqb_refl].
Qed.

Lemma insert_or_ignore_email_twice (email : string) (rows : list string) :
  insert_or_ignore_email email (insert_or_ignore_email email rows)
  = insert_or_ignore_email email rows.
Proof.
  unfold insert_or_ignore_email at 1.
  assert (existsb (fun e => e =? email) (insert_or_ignore_email email rows)
          = true) as ->; [|done].
  apply existsb_exists. exists email. split; [|apply String.eqb_refl].
  apply list_elem_of_In, insert_or_ignore_email_elem. by left.
Qed.

Lemma delete_email_elem (email x : string) (rows : list string) :
  x ∈ delete_email email rows <-> x ≠ email /\ x ∈ rows.
Proof.
  unfold delete_email. rewrite !list_elem_of_In, filter_In.
  rewrite negb_true_iff, String.eqb_neq. tauto.
Qed.

Lemma delete_email_NoDup (email : string) (rows : list string) :
  NoDup rows -> NoDup (delete_email email rows).
Proof.
  intros Hnd. unfold delete_email. apply NoDup_ListNoDup.
  apply List.NoDup_filter. by apply NoDup_ListNoDup.
Qed.

(** The recipient table after [manage_email] with an address and SQLite
    answering. *)
Lemma manage_email_run (email : string) (action : option string) (w : World) :
  email ≠ "" ->
  (sqlite_fault (env w)).1 = None ->
  exists w',
    manage_email (Some email) action w = (Returns (RedirectTo "/"), w')
    /\ tbl_units (db w') = tbl_units (db w)
    /\ tbl_temperature_log (db w') = tbl_temperature_log (db w)
    /\ tbl_settings (db w') = tbl_settings (db w)
    /\ mail_calls w' = mail_calls w
    /\ tbl_email_recipients (db w')
       = match action with
         | Some a =>
             if a =? "add" then
               insert_or_ignore_email email (tbl_email_recipients (db w))
             else if a =? "remove" then
               delete_email email (tbl_email_recipients (db w))
             else tbl_email_recipients (db w)
         | None => tbl_email_recipients (db w)
         end.
Proof.
  intros Hne Hfault. unfold manage_email. simpl.
  apply String.eqb_neq in Hne. rewrite Hne. simpl.
  unfold bind, sqlite_connect, set_recipients, ret.
  destruct (sqlite_fault (env w)) as [[x|] e1]; simpl in Hfault; [done|].
  simpl. destruct action as [a|]; [|by eexists].
  destruct (a =? "add"); [by eexists|].
  destruct (a =? "remove"); by eexists.
Qed.

(** X8.  [/email] keeps the recipient table free of duplicates.  With an
    address: "add" makes it a recipient and keeps the others, and adding it
    again changes nothing; "remove" makes it no recipient and keeps the
    others; any other action changes nothing.  Without an address the
    request is refused with 400 before SQLite is touched. *)
Theorem manage_email_recipients (email : string) (action : option string)
    (w : World) :
  email ≠ "" ->
  (sqlite_fault (env w)).1 = None ->
  let rows := tbl_email_recipients (db w) in
  let w' := (manage_email (Some email) action w).2 in
  let rows' := tbl_email_recipients (db w') in
  (manage_email (Some email) action w).1 = Returns (RedirectTo "/")
  /\ (NoDup rows -> NoDup rows')
  /\ (action = Some "add" ->
      (forall x, x ∈ rows' <-> x = email \/ x ∈ rows)
      /\ forall v, db v = db w' -> (sqlite_fault (env v)).1 = None ->
           tbl_email_recipients (db (manage_email (Some email) action v).2)
           = rows')
  /\ (action = Some "remove" ->
      forall x, x ∈ rows' <-> x ≠ email /\ x ∈ rows)
  /\ (action ≠ Some "add" -> action ≠ Some "remove" -> rows' = rows)
  /\ (forall v, manage_email None action v = (Returns (TextPage "Missing email" 400), v))
  /\ (forall v, manage_email (Some "") action v
                = (Returns (TextPage "Missing email" 400), v)).
Proof.
  intros Hne Hfault rows w' rows'.
  destruct (manage_email_run email action w Hne Hfault)
    as (w1 & Hrun & _ & _ & _ & _ & Hrows).
  subst rows' w'. rewrite Hrun. simpl. fold rows in Hrows.
  split_and!; try done.
  - intros Hnd. rewrite Hrows. destruct action as [a|]; [|done].
    destruct (a =? "add"); [by apply insert_or_ignore_email_NoDup|].
    destruct (a =? "remove"); [by apply delete_email_NoDup|done].
  - intros ->. simpl in Hrows. split.
    + intros x. rewrite Hrows. apply insert_or_ignore_email_elem.
    + intros v Hdb Hfaultv.
      destruct (manage_email_run email (Some "add") v Hne Hfaultv)
        as (v1 & Hrunv & _ & _ & _ & _ & Hrowsv).
      rewrite Hrunv. simpl in *. rewrite Hrowsv, Hdb, Hrows.
      apply insert_or_ignore_email_twice.
  - intros ->. simpl in Hrows. intros x. rewrite Hrows.
    apply delete_email_elem.
  - intros Hadd Hrem. rewrite Hrows. destruct action as [a|]; [|done].
    destruct (String.eqb_spec a "add") as [->|_]; [done|].
    by destruct (String.eqb_spec a "remove") as [->|_].
Qed.

(** X9.  An address added through [/email] gets exactly one message at
    the next alert, also when it had been a recipient already: with a table
    free of duplicates, the calls of [mail.send] of the dispatch are those
    for the recipients before the address, the one for the address, and
    those for the recipients after it, none of the others being for it. *)
Theorem added_recipient_alerted_once (email : string) (unit_id : Z)
    (temperature : float) (w : World) :
  email ≠ "" ->
  NoDup (tbl_email_recipients (db w)) ->
  (sqlite_fault (env w)).1 = None ->
  let w1 := (manage_email (Some email) (Some "add") w).2 in
  (sqlite_fault (env w1)).1 = None ->
  exists before after w2,
    send_email_alert unit_id temperature w1 = (Returns tt, w2)
    /\ mail_calls w2
       = (mail_calls w
          ++ map (alert_message unit_id temperature) before
          ++ [alert_message unit_id temperature email]
          ++ map (alert_message unit_id temperature) after)%list
    /\ (email ∉ before) /\ (email ∉ after).
Proof.
  intros Hne Hnd Hf w1 Hf1.
  destruct (manage_email_run email (Some "add") w Hne Hf)
    as (w1' & Hrun & _ & _ & _ & Hmail & Hrows).
  assert (w1 = w1') as -> by (subst w1; by rewrite Hrun).
  simpl in Hrows.
  destruct (send_email_alert_run unit_id temperature w1' Hf1)
    as (w2 & Hsend & Hcalls & _).
  assert (email ∈ tbl_email_recipients (db w1')) as Hin.
  { rewrite Hrows. apply insert_or_ignore_email_elem. by left. }
  assert (NoDup (tbl_email_recipients (db w1'))) as Hnd'.
  { rewrite Hrows. by apply insert_or_ignore_email_NoDup. }
  apply list_elem_of_split in Hin as (before & after & Heq).
  rewrite Heq in Hnd'. apply NoDup_app in Hnd' as (_ & Hdisj & Hcons).
  apply NoDup_cons in Hcons as [Hafter _].
  exists before, after, w2. split_and!; [done| |  |done].
  - rewrite Hcalls, Hmail, Heq. by rewrite map_app.
  - intros Hb. apply (Hdisj email Hb). by left.
Qed.

(** ** Turns of the monitoring loop *)

(** [log_data] never raises: it appends the row, or, when SQLite fails,
    prints the failure and leaves the store as it was. *)
Lemma log_data_run unit_id temperature humidity fan_on (w : World) :
  log_data unit_id temperature humidity fan_on w
  = (Returns tt,
     match (sqlite_fault (env w)).1 with
     | None =>
         (insert_log (mkLogRow unit_id temperature humidity
                               (if fan_on then 1 else 0))
            (set_env (sqlite_fault (env w)).2 w)).2
     | Some x =>
         add_stdout ("Failed to log data: " ++ exn_msg x)
                    (set_env (sqlite_fault (env w)).2 w)
     end).
Proof.
  unfold log_data, try_except, bind, sqlite_connect, print.
  by destruct (sqlite_fault (env w)) as [[x|] e1].
Qed.

(** X10.  A turn whose temperature is within the limits, the limits
    themselves included, writes its log row and runs no alert: no mail is
    attempted and the recipient table is not read.  When the write fails,
    the failure is printed, the sample is lost and the turn goes on. *)
Theorem in_range_logged_not_alerted (min_temp max_temp : float) (unit_id : Z)
    (temp : float) (hum : option float) (fan_on : bool) (w w1 w2 : World) :
  read_sensor unit_id w = (Returns (Some temp, hum), w1) ->
  get_fan_status unit_id w1 = (Returns fan_on, w2) ->
  ((temp <? min_temp)%float || (max_temp <? temp)%float)%bool = false ->
  let w3 := (log_data unit_id (Some temp) hum fan_on w2).2 in
  monitor_unit min_temp max_temp unit_id w
  = (Returns tt, set_env (time_sleep 2 (env w3)) w3)
  /\ mail_calls w3 = mail_calls w
  /\ env w3 = (sqlite_fault (env w2)).2
  /\ match (sqlite_fault (env w2)).1 with
     | None =>
         tbl_temperature_log (db w3)
         = (tbl_temperature_log (db w)
            ++ [mkLogRow unit_id (Some temp) hum (if fan_on then 1 else 0)])%list
     | Some x =>
         db w3 = db w
         /\ stdout w3
            = (stdout w2 ++ [("Failed to log data: " ++ exn_msg x)%string])%list
     end.
Proof.
  intros Hread Hfan Hin w3.
  pose proof (read_sensor_keeps db unit_id w) as Hdb1.
  pose proof (get_fan_status_keeps db unit_id w1) as Hdb2.
  pose proof (read_sensor_keeps mail_calls unit_id w) as Hmc1.
  pose proof (get_fan_status_keeps mail_calls unit_id w1) as Hmc2.
  rewrite Hread in Hdb1, Hmc1. rewrite Hfan in Hdb2, Hmc2.
  simpl in Hdb1, Hdb2, Hmc1, Hmc2.
  pose proof (log_data_run unit_id (Some temp) hum fan_on w2) as Hlog.
  split_and!.
  - unfold monitor_unit.
    rewrite (bind_returns _ _ _ _ _ Hread), (bind_returns _ _ _ _ _ Hfan).
    simpl. rewrite Hin. subst w3. rewrite Hlog. unfold bind. rewrite Hlog.
    reflexivity.
  - subst w3. rewrite (log_data_keeps mail_calls) by done. congruence.
  - subst w3. rewrite Hlog. simpl.
    by destruct (sqlite_fault (env w2)) as [[x|] e1].
  - subst w3. rewrite Hlog. simpl.
    destruct (sqlite_fault (env w2)) as [[x|] e1]; simpl.
    + split; [congruence|done].
    + congruence.
Qed.

(** ** Units that are not in the registry *)

(** X11.  For an id the registry does not hold, [read_sensor] and
    [get_fan_status] raise [KeyError] (nothing in them catches it) and leave
    the world as it was.  So does the turn of the monitoring loop for that
    id, and with it the whole pass: the units after it in the snapshot are
    not sampled. *)
Theorem unknown_unit_raises (min_temp max_temp : float) (unit_id : Z)
    (rest : list Z) (w : World) :
  units_lock w = false ->
  unit_id ∉ keys (registry w) ->
  let missing := mkExn KeyError (pretty unit_id) in
  read_sensor unit_id w = (Raises missing, w)
  /\ get_fan_status unit_id w = (Raises missing, w)
  /\ monitor_unit min_temp max_temp unit_id w = (Raises missing, w)
  /\ for_each (unit_id :: rest) (monitor_unit min_temp max_temp) w
     = (Raises missing, w).
Proof.
  intros Hlock Hout missing.
  assert (getitem unit_id (registry w) = None) as Hnone.
  { destruct (getitem unit_id (registry w)) eqn:Hget; [|done].
    destruct Hout. apply getitem_keys. by rewrite Hget. }
  assert (read_sensor unit_id w = (Raises missing, w)) as Hread.
  { unfold read_sensor, with_units_lock, units_getitem, bind.
    rewrite Hlock.
    change (registry (set_units_lock true w)) with (registry w).
    rewrite Hnone. simpl. by rewrite release_acquire. }
  assert (monitor_unit min_temp max_temp unit_id w = (Raises missing, w))
    as Hturn.
  { unfold monitor_unit. by rewrite (bind_raises _ _ _ _ _ Hread). }
  split_and!; [done| |done|].
  - unfold get_fan_status, with_units_lock, units_getitem, bind.
    rewrite Hlock.
    change (registry (set_units_lock true w)) with (registry w).
    rewrite Hnone. simpl. by rewrite release_acquire.
  - simpl. by rewrite (bind_raises _ _ _ _ _ Hturn).
Qed.

(** ** Adding units *)

Lemma next_unit_id_fresh (d : Database) (row : unit_row) :
  row ∈ tbl_units d -> (row_id row < next_unit_id d)%Z.
Proof.
  unfold next_unit_id. intros Hin.
  assert (row_id row <= fold_right Z.max (seq_units d) (map row_id (tbl_units d)))%Z;
    [|lia].
  induction (tbl_units d) as [|r rows IH]; [by apply elem_of_nil in Hin|].
  simpl. apply elem_of_cons in Hin as [->|Hin]; [lia|].
  specialize (IH Hin). lia.
Qed.

Lemma name_not_taken (taken : string) (rows : list unit_row) :
  existsb (fun r => row_name r =? taken) rows = false ->
  forall row, row ∈ rows -> row_name row ≠ taken.
Proof.
  intros Hex row Hin Hname. apply not_true_iff_false in Hex. apply Hex.
  by apply (name_taken taken row).
Qed.

(** The store after [add_unit]: as before, or with one more row, active,
    under a name no row had and with the next id. *)
Lemma add_unit_db (form : add_unit_form) (w : World) :
  db (add_unit form w).2 = db w
  \/ exists unit_name dht_pin fan_pin,
       (forall row, row ∈ tbl_units (db w) -> row_name row ≠ unit_name)
       /\ db (add_unit form w).2
          = mkDatabase
              (tbl_units (db w)
               ++ [mkUnitRow (next_unit_id (db w)) unit_name dht_pin fan_pin 1])
              (next_unit_id (db w)) (tbl_temperature_log (db w))
              (tbl_email_recipients (db w)) (tbl_settings (db w)).
Proof.
  remember (add_unit form w) as res eqn:Hres. unfold add_unit in Hres.
  destruct (negb _); [left; by subst res|].
  destruct (py_int _) as [fan_pin|]; [|left; by subst res].
  unfold bind at 1 in Hres. unfold sqlite_connect in Hres.
  destruct (sqlite_fault (env w)) as [[x|] e1]; [left; by subst res|].
  cbv beta iota zeta in Hres.
  unfold bind at 1 in Hres. unfold try_except_only, bind at 1, insert_unit in Hres.
  cbv beta iota zeta in Hres.
  change (db (set_env e1 w)) with (db w) in Hres.
  destruct (existsb _ (tbl_units (db w))) eqn:Hex.
  { left. subst res. by destruct (is_IntegrityError _). }
  right. eexists _, _, fan_pin. split; [by apply name_not_taken|].
  unfold ret at 1 in Hres. cbv beta iota zeta in Hres.
  destruct (negb (hasattr_board _)); [by subst res|].
  subst res. rewrite (keeps_bind db); [done|by apply keeps_print|].
  intros _. apply keeps_bind; [by apply load_units_keeps|].
  intros _. frames.
Qed.

(** X12.  A request to add a unit under a new name, with a pin the board
    has and an integer fan pin, is stored as one new active row whose id is
    larger than every id in the table, the units are reloaded and the
    request answers success; the new unit is in the registry exactly when
    its sensor and fan handles could be constructed once the older units
    had been loaded. *)
Theorem add_unit_stores_and_reloads (unit_name dht_pin fan_text : string)
    (fan_pin : Z) (pin : Pin) (w : World) :
  unit_name ≠ "" -> dht_pin ≠ "" -> fan_text ≠ "" ->
  py_int fan_text = Some fan_pin ->
  board_getattr dht_pin = Some pin ->
  (forall row, row ∈ tbl_units (db w) -> row_name row ≠ unit_name) ->
  units_lock w = false ->
  (sqlite_fault (env w)).1 = None ->
  (sqlite_fault (sqlite_fault (env w)).2).1 = None ->
  let new_row := mkUnitRow (next_unit_id (db w)) unit_name dht_pin fan_pin 1 in
  exists w',
    add_unit (mkForm (Some unit_name) (Some dht_pin) (Some fan_text)) w
    = (Returns (mkResponse true None 200), w')
    /\ tbl_units (db w') = (tbl_units (db w) ++ [new_row])%list
    /\ (forall row, row ∈ tbl_units (db w) -> (row_id row < row_id new_row)%Z)
    /\ (row_id new_row ∈ keys (registry w') <->
        loads new_row
              (env_after (active_units (db w))
                         (sqlite_fault (sqlite_fault (env w)).2).2)).
Proof.
  intros Hn Hd Hf Hint Hpin Hfree Hlock Hf1 Hf2 new_row.
  destruct (sqlite_fault (env w)) as [[x|] e1] eqn:Hsf; simpl in Hf1, Hf2 |- *;
    [done|].
  set (d1 := mkDatabase (tbl_units (db w) ++ [new_row]) (next_unit_id (db w))
               (tbl_temperature_log (db w)) (tbl_email_recipients (db w))
               (tbl_settings (db w))).
  set (w1 := add_stdout "[/units/add] Reloading units after insert..."
               (set_db d1 (set_env e1 w))).
  assert ((sqlite_fault (env w1)).1 = None) as Hfw1 by done.
  destruct (load_units_run w1 Hlock Hfw1) as
    (w2 & Hrun & _ & Hdb2 & _ & _ & _ & _ & Hreg).
  exists (add_stdout "[/units/add] Reload complete." w2).
  assert (active_units (db w1) = (active_units (db w) ++ [new_row])%list)
    as Hactive.
  { unfold active_units. simpl. by rewrite List.filter_app. }
  split_and!.
  - unfold add_unit. simpl.
    apply String.eqb_neq in Hn, Hd, Hf. rewrite Hn, Hd, Hf, Hint. simpl.
    unfold bind at 1. unfold sqlite_connect. rewrite Hsf.
    cbv beta iota zeta.
    unfold bind at 1. unfold try_except_only, bind at 1, insert_unit.
    cbv beta iota zeta. change (db (set_env e1 w)) with (db w).
    rewrite (name_free unit_name) by done.
    unfold ret at 1. cbv beta iota zeta.
    unfold hasattr_board. rewrite Hpin. cbn [negb]. cbv beta iota.
    unfold bind at 1. unfold print at 1. cbv beta iota zeta.
    change (add_stdout "[/units/add] Reloading units after insert..."
              (set_db _ (set_env e1 w))) with w1.
    rewrite (bind_returns _ _ _ _ _ Hrun). reflexivity.
  - simpl. by rewrite Hdb2.
  - intros row Hin. by apply next_unit_id_fresh.
  - change (registry (add_stdout "[/units/add] Reload complete." w2))
      with (registry w2).
    rewrite Hreg, reconcile_keys, Hactive. split.
    + intros [Hin|(pre & row & post & Heq & Hk & Hl)];
        [by apply elem_of_nil in Hin|].
      assert (post = [] \/ row ∈ active_units (db w)) as [->|Hold].
      { destruct (decide (post = [])) as [|Hpost]; [by left|]. right.
        destruct (exists_last Hpost) as (post' & z & ->).
        change (pre ++ row :: post' ++ [z])%list
          with (pre ++ (row :: post') ++ [z])%list in Heq.
        rewrite app_assoc in Heq. apply app_inj_tail in Heq as [-> _].
        apply elem_of_app. right. by left. }
      * apply app_inj_tail in Heq as [<- <-]. exact Hl.
      * exfalso. assert (row ∈ tbl_units (db w)) as Hin.
        { apply list_elem_of_In. apply list_elem_of_In in Hold.
          by apply filter_In in Hold as [? _]. }
        apply (next_unit_id_fresh (db w)) in Hin. simpl in Hk. lia.
    + intros Hl. right. exists (active_units (db w)), new_row, [].
      by split_and!.
Qed.

(** ** The store under the monitoring loop *)

Lemma add_log_rows_nil (d : Database) : add_log_rows d [] = d.
Proof. destruct d. unfold add_log_rows. simpl. by rewrite app_nil_r. Qed.

Lemma add_log_rows_app (d : Database) (rows rows' : list log_row) :
  add_log_rows (add_log_rows d rows) rows' = add_log_rows d (rows ++ rows').
Proof. unfold add_log_rows. simpl. by rewrite app_assoc. Qed.

(** A turn for one unit leaves the store as it was or appends one row, of
    that unit and with a temperature. *)
Lemma monitor_unit_db (min_temp max_temp : float) (unit_id : Z) (w : World) :
  db (monitor_unit min_temp max_temp unit_id w).2 = db w
  \/ exists temp hum fan_status,
       db (monitor_unit min_temp max_temp unit_id w).2
       = add_log_rows (db w) [mkLogRow unit_id (Some temp) hum fan_status].
Proof.
  pose proof (read_sensor_keeps db unit_id w) as Hdb1.
  unfold monitor_unit.
  destruct (read_sensor unit_id w) as [[reading|e|] w1] eqn:Hread;
    simpl in Hdb1;
    [|left; by rewrite (bind_raises _ _ _ _ _ Hread)
     |left; by rewrite (bind_hangs _ _ _ _ Hread)].
  rewrite (bind_returns _ _ _ _ _ Hread).
  pose proof (get_fan_status_keeps db unit_id w1) as Hdb2.
  destruct (get_fan_status unit_id w1) as [[fan_on|e|] w2] eqn:Hfan;
    simpl in Hdb2;
    [|left; rewrite (bind_raises _ _ _ _ _ Hfan); simpl; congruence
     |left; rewrite (bind_hangs _ _ _ _ Hfan); simpl; congruence].
  rewrite (bind_returns _ _ _ _ _ Hfan).
  rewrite (keeps_after db); [|intros _; by apply keeps_sleep].
  destruct reading.1 as [temp|]; [|left; simpl; congruence].
  rewrite (keeps_after db).
  2:{ intros _. destruct (_ || _)%bool;
        [by apply send_email_alert_keeps|by apply keeps_ret]. }
  rewrite log_data_run. simpl.
  destruct (sqlite_fault (env w2)) as [[x|] e1]; simpl.
  - left. congruence.
  - right. exists temp, reading.2, (if fan_on then 1%Z else 0%Z).
    unfold add_log_rows. by rewrite Hdb2, Hdb1.
Qed.

(** A pass over a snapshot of ids never touches the registry and appends
    rows with a temperature, at most one for each place of the snapshot and
    in the order of the snapshot: read in order, the units of the rows are a
    sublist of the snapshot. *)
Lemma monitor_pass_db (min_temp max_temp : float) (unit_ids : list Z) :
  forall w,
    registry (for_each unit_ids (monitor_unit min_temp max_temp) w).2
    = registry w
    /\ exists rows,
         db (for_each unit_ids (monitor_unit min_temp max_temp) w).2
         = add_log_rows (db w) rows
         /\ map log_unit_id rows `sublist_of` unit_ids
         /\ Forall (fun r => is_Some (log_temperature r)) rows.
Proof.
  induction unit_ids as [|unit_id unit_ids IH]; intros w; simpl.
  - split; [done|]. exists []. by rewrite add_log_rows_nil.
  - pose proof (monitor_unit_keeps registry min_temp max_temp unit_id) as Hreg.
    specialize (Hreg ltac:(done) ltac:(done) w).
    pose proof (monitor_unit_db min_temp max_temp unit_id w) as Hdb.
    destruct (monitor_unit min_temp max_temp unit_id w) as [[[]|e|] w1] eqn:Hturn;
      simpl in Hreg, Hdb.
    + rewrite (bind_returns _ _ _ _ _ Hturn).
      destruct (IH w1) as (Hreg1 & rows & Hrows & Hsub & Hall).
      split; [congruence|].
      destruct Hdb as [Hdb|(temp & hum & fan_status & Hdb)].
      * exists rows. split_and!; [congruence|by apply sublist_cons|done].
      * exists (mkLogRow unit_id (Some temp) hum fan_status :: rows).
        split_and!.
        -- rewrite Hrows, Hdb. by rewrite add_log_rows_app.
        -- simpl. by apply sublist_skip.
        -- apply Forall_cons. split; [simpl; eauto|done].
    + rewrite (bind_raises _ _ _ _ _ Hturn). simpl. split; [done|].
      destruct Hdb as [Hdb|(temp & hum & fan_status & Hdb)].
      * exists []. rewrite add_log_rows_nil.
        split_and!; [done|apply sublist_nil_l|done].
      * exists [mkLogRow unit_id (Some temp) hum fan_status].
        split_and!; [done|simpl; apply sublist_skip, sublist_nil_l|].
        apply Forall_singleton. simpl. eauto.
    + rewrite (bind_hangs _ _ _ _ Hturn). simpl. split; [done|].
      destruct Hdb as [Hdb|(temp & hum & fan_status & Hdb)].
      * exists []. rewrite add_log_rows_nil.
        split_and!; [done|apply sublist_nil_l|done].
      * exists [mkLogRow unit_id (Some temp) hum fan_status].
        split_and!; [done|simpl; apply sublist_skip, sublist_nil_l|].
        apply Forall_singleton. simpl. eauto.
Qed.

Lemma only_logged_same (d : Database) (w' : World) :
  db w' = d -> only_logged d w'.
Proof.
  intros <-. exists []. rewrite add_log_rows_nil.
  split_and!; [done|apply sublist_nil_l|done].
Qed.

Lemma only_logged_bind {A B} (d : Database) (m : M A) (k : A -> M B) (w : World) :
  keeps db m ->
  (forall a w1, db w1 = d -> only_logged d (k a w1).2) ->
  db w = d -> only_logged d (bind m k w).2.
Proof.
  intros Hm Hk Hd. specialize (Hm w). unfold bind.
  destruct (m w) as [[a|e|] w1]; simpl in *.
  - apply Hk. congruence.
  - apply only_logged_same. congruence.
  - apply only_logged_same. congruence.
Qed.

(** What a turn of the loop appends, whatever world it starts from. *)
Lemma monitor_cycle_only_logged (last_reload : float) (w : World) :
  only_logged (db w) (monitor_cycle last_reload w).2.
Proof.
  unfold monitor_cycle.
  apply only_logged_bind; [by apply keeps_time| |done]. intros now w0 Hw0.
  apply only_logged_bind; [| |done].
  { destruct (60 <? now - last_reload)%float; [|by apply keeps_ret].
    apply keeps_bind; [by apply load_units_keeps|]. intros _.
    by apply keeps_ret. }
  intros last w1 Hw1.
  apply only_logged_bind; [by apply get_settings_keeps| |done].
  intros limits w2 Hw2.
  unfold bind at 1, with_units_lock.
  destruct (units_lock w2) eqn:Hlock; [by apply only_logged_same|].
  cbv beta iota zeta.
  change (registry (set_units_lock true w2)) with (registry w2).
  set (w3 := set_units_lock false (set_units_lock true w2)).
  destruct (monitor_pass_db (temp_spec_min limits) (temp_spec_max limits)
              (keys (registry w2)) w3) as (Hreg & rows & Hrows & Hsub & Hall).
  change (registry w3) with (registry w2) in Hreg.
  change (db w3) with (db w2) in Hrows.
  assert (forall w4, db w4 = db (for_each (keys (registry w2))
                                   (monitor_unit (temp_spec_min limits)
                                                 (temp_spec_max limits)) w3).2 ->
                     registry w4 = registry w2 ->
                     only_logged (db w) w4) as Hdone.
  { intros w4 Hdb4 Hreg4. exists rows. rewrite Hreg4.
    split_and!; [congruence|done|done]. }
  unfold bind.
  destruct (for_each _ _ w3) as [[[]|e|] w4]; simpl in *;
    apply Hdone; try done; congruence.
Qed.

(** *** The keys of the registry

    The registry is a dict: [load_units] builds it with [new_units[unit_id]
    = ...], so no key comes twice in it, and the loop hands that on. *)

Lemma setitem_keys_NoDup {V} (k : Z) (v : V) (d : dict V) :
  NoDup (keys d) -> NoDup (keys (setitem k v d)).
Proof.
  induction d as [|[k' v'] d IH]; simpl; intros Hd.
  - apply NoDup_singleton.
  - apply NoDup_cons in Hd as [Hnotin Hd].
    destruct (Z.eqb_spec k k') as [->|Hne]; simpl.
    + by apply NoDup_cons.
    + apply NoDup_cons. split; [|by apply IH].
      change (k' ∉ keys (setitem k v d)). rewrite keys_setitem.
      intros [Heq|Hin]; [by subst|done].
Qed.

Lemma reconcile_keys_NoDup (rows : list unit_row) :
  forall (e : Env) (d : dict RuntimeUnit),
    NoDup (keys d) -> NoDup (keys (reconcile rows e d)).
Proof.
  induction rows as [|row rows IH]; intros e d Hd; simpl; [done|].
  destruct (make_handles row e) as [[[s f]|] e'].
  - apply IH. by apply setitem_keys_NoDup.
  - by apply IH.
Qed.

Lemma load_units_registry_NoDup (w : World) :
  NoDup (keys (registry w)) -> NoDup (keys (registry (load_units w).2)).
Proof.
  intros Hw.
  destruct (units_lock w) eqn:Hlock.
  { destruct (load_units_held w Hlock) as [_ Hreg]. by rewrite Hreg. }
  destruct (sqlite_fault (env w)) as [[x|] e1] eqn:Hfault.
  - unfold load_units, select_active_units, sqlite_connect, bind.
    rewrite Hfault. exact Hw.
  - destruct (load_units_run w Hlock) as (w' & Hrun & _ & _ & _ & _ & _ & _ & Hreg).
    { by rewrite Hfault. }
    rewrite Hrun. simpl. rewrite Hreg.
    apply reconcile_keys_NoDup. simpl. apply NoDup_nil_2.
Qed.

Lemma registry_invariant_bind {A B} (P : dict RuntimeUnit -> Prop)
    (m : M A) (k : A -> M B) :
  (forall w, P (registry w) -> P (registry (m w).2)) ->
  (forall a w, P (registry w) -> P (registry (k a w).2)) ->
  forall w, P (registry w) -> P (registry (bind m k w).2).
Proof.
  intros Hm Hk w Hw. specialize (Hm w Hw). unfold bind.
  destruct (m w) as [[a|e|] w1]; simpl in *; [by apply Hk|done|done].
Qed.

Lemma registry_invariant_keeps {A} (P : dict RuntimeUnit -> Prop) (m : M A) :
  keeps registry m ->
  forall w, P (registry w) -> P (registry (m w).2).
Proof. intros Hm w Hw. by rewrite Hm. Qed.

Lemma monitor_cycle_registry_NoDup (last_reload : float) (w : World) :
  NoDup (keys (registry w)) ->
  NoDup (keys (registry (monitor_cycle last_reload w).2)).
Proof.
  revert w. unfold monitor_cycle.
  apply (registry_invariant_bind (fun d => NoDup (keys d)));
    [apply (registry_invariant_keeps (fun d => NoDup (keys d))); by apply keeps_time|].
  intros now.
  apply (registry_invariant_bind (fun d => NoDup (keys d))).
  { destruct (60 <? now - last_reload)%float.
    - apply (registry_invariant_bind (fun d => NoDup (keys d)));
        [exact load_units_registry_NoDup|].
      intros _. apply (registry_invariant_keeps (fun d => NoDup (keys d))). by apply keeps_ret.
    - apply (registry_invariant_keeps (fun d => NoDup (keys d))). by apply keeps_ret. }
  intros last. apply (registry_invariant_keeps (fun d => NoDup (keys d))).
  apply keeps_bind; [by apply get_settings_keeps|]. intros limits.
  apply keeps_bind; [by apply keeps_with_units_lock|]. intros unit_ids.
  apply keeps_bind.
  { apply keeps_for_each. intros unit_id. by apply monitor_unit_keeps. }
  intros _. apply keeps_bind; [by apply keeps_sleep|]. intros _.
  by apply keeps_ret.
Qed.

(** X13.  A turn of the monitoring loop changes nothing in the store but
    the log, to which it only appends rows with a temperature: units,
    recipients and limits are as before, and no log row is removed or
    altered.  Read in order, the units of the new rows are a sublist of the
    keys of the registry the turn sampled: every row is of a unit of that
    registry, the rows come in the order of the registry, and no key of it
    accounts for more than one row.  The registry being a dict whose keys
    are distinct, and the turn keeping it so, no two of the new rows are of
    the same unit: a turn logs a unit at most once. *)
Theorem monitor_cycle_only_appends (last_reload : float) (w : World) :
  let w' := (monitor_cycle last_reload w).2 in
  exists rows,
    db w' = add_log_rows (db w) rows
    /\ Forall (fun r => is_Some (log_temperature r)) rows
    /\ map log_unit_id rows `sublist_of` keys (registry w')
    /\ (NoDup (keys (registry w)) ->
        NoDup (keys (registry w')) /\ NoDup (map log_unit_id rows)).
Proof.
  intros w'.
  destruct (monitor_cycle_only_logged last_reload w) as (rows & Hdb & Hsub & Hall).
  exists rows. split_and!; [done|done|done|].
  intros Hkeys.
  pose proof (monitor_cycle_registry_NoDup last_reload w Hkeys) as Hkeys'.
  split; [done|]. by eapply sublist_NoDup.
Qed.

(** ** Keys of the units table *)

(** X14.  Ids and names of units stay unique: whatever the request and
    whatever its outcome, [add_unit] and [remove_unit] leave a units table
    in which no two rows share an id or a name, if they found one.  An id,
    once given, is never given again to another row. *)
Theorem units_stay_unique (w : World) :
  units_unique (db w) ->
  (forall form, units_unique (db (add_unit form w).2))
  /\ (forall unit_id, units_unique (db (remove_unit unit_id w).2))
  /\ (forall form row row',
        row ∈ tbl_units (db w) ->
        row' ∈ tbl_units (db (add_unit form w).2) ->
        row_id row' = row_id row -> row_name row' = row_name row).
Proof.
  intros [Hids Hnames]. split_and!.
  - intros form.
    destruct (add_unit_db form w)
      as [->|(unit_name & dht_pin & fan_pin & Hfree & ->)]; [done|].
    unfold units_unique. simpl. rewrite !map_app. simpl.
    split; apply NoDup_app; (split_and!; [done| |apply NoDup_singleton]).
    + intros x Hin Hx. apply list_elem_of_singleton in Hx. subst x.
      apply list_elem_of_fmap in Hin as (row & Heq & Hin).
      apply (next_unit_id_fresh (db w)) in Hin. lia.
    + intros x Hin Hx. apply list_elem_of_singleton in Hx. subst x.
      apply list_elem_of_fmap in Hin as (row & Heq & Hin).
      by apply (Hfree row).
  - intros unit_id. unfold units_unique, remove_unit.
    rewrite (keeps_after db).
    2:{ intros _. apply keeps_bind; [by apply load_units_keeps|].
        intros _. by apply keeps_ret. }
    unfold bind, sqlite_connect, update_inactive.
    destruct (sqlite_fault (env w)) as [[x|] e1]; simpl; [done|].
    destruct (deactivate_ids unit_id (tbl_units (db w))) as [-> ->]. done.
  - intros form row row' Hin Hin' Hid.
    destruct (add_unit_db form w)
      as [Hdb|(unit_name & dht_pin & fan_pin & Hfree & Hdb)];
      rewrite Hdb in Hin'.
    + assert (row' = row) as ->; [|done].
      apply list_elem_of_lookup in Hin as [i Hi].
      apply list_elem_of_lookup in Hin' as [j Hj].
      assert (i = j) as ->; [|congruence].
      eapply (NoDup_lookup (map row_id (tbl_units (db w)))); [done| |].
      * rewrite list_lookup_fmap, Hi. reflexivity.
      * rewrite list_lookup_fmap, Hj. simpl. by rewrite Hid.
    + simpl in Hin'. apply elem_of_app in Hin' as [Hin'|Hnew].
      * assert (row' = row) as ->; [|done].
        apply list_elem_of_lookup in Hin as [i Hi].
        apply list_elem_of_lookup in Hin' as [j Hj].
        assert (i = j) as ->; [|congruence].
        eapply (NoDup_lookup (map row_id (tbl_units (db w)))); [done| |].
        -- rewrite list_lookup_fmap, Hi. reflexivity.
        -- rewrite list_lookup_fmap, Hj. simpl. by rewrite Hid.
      * apply list_elem_of_singleton in Hnew. subst row'. simpl in Hid.
        apply (next_unit_id_fresh (db w)) in Hin. lia.
Qed.

(** ** The schema script *)

Lemma insert_or_ignore_setting_twice (key value : string)
    (rows : list (string * option string)) :
  insert_or_ignore_setting key value (insert_or_ignore_setting key value rows)
  = insert_or_ignore_setting key value rows.
Proof.
  unfold insert_or_ignore_setting at 1.
  assert (existsb (fun kv => kv.1 =? key)
                  (insert_or_ignore_setting key value rows) = true) as ->;
    [|done].
  unfold insert_or_ignore_setting.
  destruct (existsb (fun kv => kv.1 =? key) rows) eqn:Hex; [done|].
  rewrite existsb_app. simpl. by rewrite String.eqb_refl, !orb_true_r.
Qed.

Lemma insert_or_ignore_setting_has (key key' value : string)
    (rows : list (string * option string)) :
  existsb (fun kv => kv.1 =? key') rows = true ->
  existsb (fun kv => kv.1 =? key')
          (insert_or_ignore_setting key value rows) = true.
Proof.
  intros Hex. unfold insert_or_ignore_setting.
  destruct (existsb (fun kv => kv.1 =? key) rows); [done|].
  rewrite existsb_app. by rewrite Hex.
Qed.

Lemma insert_or_ignore_setting_lookup (key value k : string)
    (rows : list (string * option string)) :
  settings_dict (insert_or_ignore_setting key value rows) !! k
  = if existsb (fun kv => kv.1 =? key) rows then settings_dict rows !! k
    else if decide (k = key) then Some (Some value)
    else settings_dict rows !! k.
Proof.
  unfold insert_or_ignore_setting.
  destruct (existsb (fun kv => kv.1 =? key) rows); [done|].
  unfold settings_dict. rewrite foldl_snoc. simpl.
  destruct (decide (k = key)) as [->|Hne].
  - by rewrite lookup_insert_eq.
  - by rewrite lookup_insert_ne.
Qed.

Lemma settings_dict_present (key : string) (rows : list (string * option string)) :
  existsb (fun kv => kv.1 =? key) rows = true ->
  is_Some (settings_dict rows !! key).
Proof.
  unfold settings_dict.
  assert (forall m : gmap string (option string),
            is_Some (m !! key) \/ existsb (fun kv => kv.1 =? key) rows = true ->
            is_Some (foldl (fun m kv => <[kv.1 := kv.2]> m) m rows !! key)) as H.
  { induction rows as [|[k v] rows IH]; intros m Hm; simpl in *.
    - by destruct Hm.
    - apply IH. destruct (String.eqb_spec k key) as [->|Hne]; simpl in Hm.
      + left. rewrite lookup_insert_eq. eauto.
      + destruct Hm as [Hm|Hm]; [|by right]. left.
        by rewrite lookup_insert_ne. }
  intros Hex. apply H. by right.
Qed.

(** X15.  Running [init_db.py] on an existing database changes no unit,
    no log row and no recipient, and leaves every limit that is stored as
    it is, filling in 10 or 40 only for a limit that is missing; running
    it again changes nothing.  On a new file it leaves empty tables and the
    limits "10" and "40". *)
Theorem init_db_preserves (d : Database) :
  tbl_units (init_db (Some d)) = tbl_units d
  /\ seq_units (init_db (Some d)) = seq_units d
  /\ tbl_temperature_log (init_db (Some d)) = tbl_temperature_log d
  /\ tbl_email_recipients (init_db (Some d)) = tbl_email_recipients d
  /\ (forall key value,
        settings_dict (tbl_settings d) !! key = Some value ->
        settings_dict (tbl_settings (init_db (Some d))) !! key = Some value)
  /\ is_Some (settings_dict (tbl_settings (init_db (Some d))) !! "temp_spec_min")
  /\ is_Some (settings_dict (tbl_settings (init_db (Some d))) !! "temp_spec_max")
  /\ init_db (Some (init_db (Some d))) = init_db (Some d)
  /\ init_db None
     = mkDatabase [] 0 [] []
                  [("temp_spec_min", Some "10"); ("temp_spec_max", Some "40")].
Proof.
  split_and!; try done.
  - intros key value Hget. unfold init_db. simpl.
    rewrite !insert_or_ignore_setting_lookup.
    destruct (existsb _ (insert_or_ignore_setting _ _ _)) eqn:Hmax.
    + destruct (existsb _ (tbl_settings d)) eqn:Hmin; [done|].
      destruct (decide (key = "temp_spec_min")) as [->|_]; [|done].
      assert (settings_dict (tbl_settings d) !! "temp_spec_min" = None) as Hno;
        [|congruence].
      apply settings_dict_absent. intros v Hin.
      apply not_true_iff_false in Hmin. apply Hmin, existsb_exists.
      exists ("temp_spec_min", v). split; [by apply list_elem_of_In|done].
    + destruct (decide (key = "temp_spec_max")) as [->|_].
      * assert (settings_dict (tbl_settings d) !! "temp_spec_max" = None) as Hno;
          [|congruence].
        apply settings_dict_absent. intros v Hin.
        apply not_true_iff_false in Hmax. apply Hmax.
        apply insert_or_ignore_setting_has, existsb_exists.
        exists ("temp_spec_max", v). split; [by apply list_elem_of_In|done].
      * destruct (existsb _ (tbl_settings d)) eqn:Hmin; [done|].
        destruct (decide (key = "temp_spec_min")) as [->|_]; [|done].
        assert (settings_dict (tbl_settings d) !! "temp_spec_min" = None)
          as Hno; [|congruence].
        apply settings_dict_absent. intros v Hin.
        apply not_true_iff_false in Hmin. apply Hmin, existsb_exists.
        exists ("temp_spec_min", v). split; [by apply list_elem_of_In|done].
  - unfold init_db. simpl. apply settings_dict_present.
    apply insert_or_ignore_setting_has.
    unfold insert_or_ignore_setting.
    destruct (existsb _ (tbl_settings d)) eqn:Hmin; [done|].
    rewrite existsb_app. simpl. by rewrite !orb_true_r.
  - unfold init_db. simpl. apply settings_dict_present.
    unfold insert_or_ignore_setting at 1.
    destruct (existsb _ (insert_or_ignore_setting _ _ _)) eqn:Hmax; [done|].
    rewrite existsb_app. simpl. by rewrite !orb_true_r.
  - unfold init_db. simpl. f_equal.
    assert (forall rows,
              existsb (fun kv => kv.1 =? "temp_spec_min")
                      (insert_or_ignore_setting "temp_spec_min" "10" rows)
              = true) as Hhas.
    { intros rows. unfold insert_or_ignore_setting.
      destruct (existsb _ rows) eqn:Hex; [done|].
      rewrite existsb_app. simpl. by rewrite !orb_true_r. }
    set (rows1 := insert_or_ignore_setting "temp_spec_min" "10" (tbl_settings d)).
    set (rows2 := insert_or_ignore_setting "temp_spec_max" "40" rows1).
    assert (insert_or_ignore_setting "temp_spec_min" "10" rows2 = rows2) as ->.
    { unfold insert_or_ignore_setting at 1.
      assert (existsb (fun kv => kv.1 =? "temp_spec_min") rows2 = true) as ->;
        [|done].
      subst rows2. apply insert_or_ignore_setting_has, Hhas. }
    subst rows2. apply insert_or_ignore_setting_twice.
Qed.

(** ** Switching a fan *)

Section Fans.

Context `{!FanDriver}.


End Fans.

End HandlerProperties.

(** * Runs on the test bench *)

#[local] Existing Instance Bench.platform.

(** C5.  [send_email_alert] does not catch a failure to read the recipient
    table: with SQLite locked, the exception leaves the call, whereas
    [get_settings] and [log_data] meet the same failure and return.  In a
    turn of the monitoring loop whose alert finds SQLite locked, the
    exception leaves the loop. *)
Theorem send_email_alert_raises_when_store_locked :
  let locked := mkExn OperationalError "database is locked" in
  let w := Bench.running Bench.database_locked in
  (send_email_alert 1 45 w).1 = Raises locked
  /\ (get_settings w).1 = Returns (mkSettings 10 40)
  /\ (log_data 1 (Some 45%float) None false w).1 = Returns tt
  /\ (monitor_loop 1
        (Bench.running
           (Bench.mkScript [Value (Some 45%float)] [] [] []
                           [None; None; Some locked] [] []))).1
     = Raises locked.
Proof. vm_compute. by split_and!. Qed.

(** C6.  Adding a unit whose sensor pin the board does not have answers
    400 with "Invalid DHT pin", but only after the row was inserted and
    committed: the store now holds the unit as active, every later
    [load_units] goes through it and skips it again, and adding the unit
    once more with a pin the board has is refused because the name is
    taken. *)
Theorem add_unit_invalid_pin_is_stored :
  let w := Bench.running Bench.quiet in
  let w' := (add_unit Bench.attic_on_D99 w).2 in
  (add_unit Bench.attic_on_D99 w).1
  = Returns (mkResponse false (Some "Invalid DHT pin: D99") 400)
  /\ tbl_units (db w')
     = (tbl_units (db w) ++ [mkUnitRow 2 "attic" "D99" 22 1])%list
  /\ stdout (load_units w').2
     = (stdout w'
        ++ ["Loading unit 1: fridge (Sensor pin: D4, Fan pin: GPIO17)";
            "[Unit 1] Loaded successfully";
            "Loading unit 2: attic (Sensor pin: D99, Fan pin: GPIO22)";
            "Invalid board pin name: D99";
            "[Unit 2] Skipped: Invalid DHT pin 'D99'"])%list
  /\ (add_unit Bench.attic_on_D17 w').1
     = Returns (mkResponse false (Some "Unit name exists") 400).
Proof. vm_compute. by split_and!. Qed.



(** [no_temperature_no_log_no_alert] on a sensor that has a humidity and no
    temperature. *)
Lemma no_temperature_no_log_no_alert_witness :
  let w := Bench.running Bench.no_temperature in
  let w1 := (read_sensor 1 w).2 in
  read_sensor 1 w = (Returns (None, Some 55%float), w1)
  /\ monitor_unit 10 40 1 w = (get_fan_status 1 ;; sleep 2) w1
  /\ db (monitor_unit 10 40 1 w).2 = db w
  /\ mail_calls (monitor_unit 10 40 1 w).2 = mail_calls w.
Proof.
  intros w w1.
  assert (read_sensor 1 w = (Returns (None, Some 55%float), w1)) as Hread
    by (vm_compute; reflexivity).
  split; [exact Hread|].
  exact (no_temperature_no_log_no_alert 10 40 1 (Some 55%float) w w1 Hread).
Defined.


(** [add_unit_duplicate_name] on a second unit called "fridge". *)
Lemma add_unit_duplicate_name_witness :
  let w := Bench.running Bench.quiet in
  let row := mkUnitRow 1 "fridge" "D4" 17 1 in
  form_name Bench.fridge_again = Some "fridge"
  /\ row ∈ tbl_units (db w)
  /\ row_name row = "fridge"
  /\ memory (add_unit Bench.fridge_again w).2 = memory w
  /\ registry (add_unit Bench.fridge_again w).2 = registry w
  /\ db (add_unit Bench.fridge_again w).2 = db w
  /\ ((exists r, (add_unit Bench.fridge_again w).1 = Returns r
                 /\ success r = false /\ status r = 400%Z)
      \/ (exists x, (add_unit Bench.fridge_again w).1 = Raises x
                    /\ (sqlite_fault (env w)).1 = Some x)).
Proof.
  intros w row.
  assert (row ∈ tbl_units (db w)) as Hin by (vm_compute; constructor).
  split; [reflexivity|]. split; [exact Hin|]. split; [reflexivity|].
  exact (add_unit_duplicate_name Bench.fridge_again "fridge" row w
           eq_refl Hin eq_refl).
Defined.


(** The limits are those of the store at each turn: a reading of 35 raises
    no alert under the limits 10 and 40, and alerts both recipients in the
    next turn, once [/set_limit] has stored 15 and 30. *)
Example limits_follow_the_store :
  let w := Bench.running Bench.two_warm_readings in
  let w1 := (monitor_cycle 0 w).2 in
  let w2 := (set_limit (Some "15") (Some "30") w1).2 in
  let w3 := (monitor_cycle 0 w2).2 in
  (get_settings w).1 = Returns (mkSettings 10 40)
  /\ mail_calls w1 = []
  /\ (get_settings w2).1 = Returns (mkSettings 15 30)
  /\ map recipients (mail_calls w3) = [["a@x"]; ["b@x"]]
  /\ map log_temperature (tbl_temperature_log (db w3))
     = [Some 35%float; Some 35%float].
Proof. vm_compute. by split_and!. Qed.

(** * The other handlers on the test bench *)

(** [remove_unit_soft_delete] on the removal of the fridge. *)
Lemma remove_unit_soft_delete_witness :
  let w := Bench.running Bench.quiet in
  let d' := db (remove_unit 1 w).2 in
  (sqlite_fault (env w)).1 = None
  /\ map row_id (tbl_units d') = map row_id (tbl_units (db w))
  /\ map row_name (tbl_units d') = map row_name (tbl_units (db w))
  /\ (forall r, r ∈ tbl_units d' -> row_id r = 1%Z -> row_active r = 0%Z)
  /\ (forall r, row_id r ≠ 1%Z -> r ∈ tbl_units d' <-> r ∈ tbl_units (db w))
  /\ tbl_temperature_log d' = tbl_temperature_log (db w)
  /\ tbl_email_recipients d' = tbl_email_recipients (db w)
  /\ tbl_settings d' = tbl_settings (db w)
  /\ forall v : World,
       db v = d' -> (sqlite_fault (env v)).1 = None ->
       (list_units v).1
       = Returns
           (map (fun r => mkUnitJson (row_id r) (row_name r) (row_dht_pin r)
                                     (row_fan_pin r))
              (List.filter (fun r => negb (row_id r =? 1)%Z)
                           (active_units (db w)))).
Proof.
  intros w d'. split; [reflexivity|].
  exact (remove_unit_soft_delete 1 w eq_refl).
Defined.

(** [remove_unit_registry] on the removal of the fridge. *)
Lemma remove_unit_registry_witness :
  let w := Bench.running Bench.quiet in
  units_lock w = false
  /\ (sqlite_fault (env w)).1 = None
  /\ (sqlite_fault (sqlite_fault (env w)).2).1 = None
  /\ exists w',
       remove_unit 1 w = (Returns (mkResponse true None 200), w')
       /\ (1%Z ∉ keys (registry w'))
       /\ forall k, k ∈ keys (registry w') ->
            k ≠ 1%Z
            /\ exists row, row ∈ tbl_units (db w) /\ row_id row = k
                           /\ row_active row = 1%Z.
Proof.
  intros w. split; [reflexivity|]. split; [reflexivity|].
  split; [reflexivity|].
  exact (remove_unit_registry 1 w eq_refl eq_refl eq_refl).
Defined.

(** [point_snapshots_hang] with the fridge in the registry. *)
Lemma point_snapshots_hang_witness :
  let w := Bench.running Bench.quiet in
  units_lock w = false
  /\ registry w = [(1%Z, mkRuntimeUnit "fridge" 4%Z 17%Z)]
  /\ get_data w = (Hangs, set_units_lock true w)
  /\ index w = (Hangs, set_units_lock true (get_settings w).2).
Proof.
  intros w. split; [reflexivity|]. split; [reflexivity|].
  exact (point_snapshots_hang w eq_refl).
Defined.

(** [held_lock_stops_monitoring] on a hot reading that is never taken. *)
Lemma held_lock_stops_monitoring_witness :
  let w := Bench.locked_out Bench.hot_and_smtp_down in
  units_lock w = true
  /\ (forall a, (monitor_cycle 0 w).1 ≠ Returns a)
  /\ db (monitor_cycle 0 w).2 = db w
  /\ mail_calls (monitor_cycle 0 w).2 = mail_calls w
  /\ registry (monitor_cycle 0 w).2 = registry w.
Proof.
  intros w. split; [reflexivity|].
  exact (held_lock_stops_monitoring 0 w eq_refl).
Defined.

(** [set_limit_round_trip] on the limits 15 and 30. *)
Lemma set_limit_round_trip_witness :
  let w := Bench.running Bench.quiet in
  let d' := db (set_limit (Some "15") (Some "30") w).2 in
  (sqlite_fault (env w)).1 = None
  /\ tbl_units d' = tbl_units (db w)
  /\ tbl_temperature_log d' = tbl_temperature_log (db w)
  /\ tbl_email_recipients d' = tbl_email_recipients (db w)
  /\ forall v : World,
       db v = d' -> (sqlite_fault (env v)).1 = None ->
       (get_settings v).1
       = Returns (match Some "15" ≫= py_float, Some "30" ≫= py_float with
                  | Some x, Some y => mkSettings x y
                  | _, _ => mkSettings 10 40
                  end).
Proof.
  intros w d'. split; [reflexivity|].
  exact (set_limit_round_trip (Some "15") (Some "30") w eq_refl).
Defined.

(** [manage_email_recipients] on a third address. *)
Lemma manage_email_recipients_witness :
  let w := Bench.running Bench.quiet in
  let action := Some "add" in
  let rows := tbl_email_recipients (db w) in
  let w' := (manage_email (Some "c@x") action w).2 in
  let rows' := tbl_email_recipients (db w') in
  "c@x" ≠ ""
  /\ (sqlite_fault (env w)).1 = None
  /\ (manage_email (Some "c@x") action w).1 = Returns (RedirectTo "/")
  /\ (NoDup rows -> NoDup rows')
  /\ (action = Some "add" ->
      (forall x, x ∈ rows' <-> x = "c@x" \/ x ∈ rows)
      /\ forall v, db v = db w' -> (sqlite_fault (env v)).1 = None ->
           tbl_email_recipients (db (manage_email (Some "c@x") action v).2)
           = rows')
  /\ (action = Some "remove" ->
      forall x, x ∈ rows' <-> x ≠ "c@x" /\ x ∈ rows)
  /\ (action ≠ Some "add" -> action ≠ Some "remove" -> rows' = rows)
  /\ (forall v, manage_email None action v
                = (Returns (TextPage "Missing email" 400), v))
  /\ (forall v, manage_email (Some "") action v
                = (Returns (TextPage "Missing email" 400), v)).
Proof.
  intros w action rows w' rows'.
  assert ("c@x" ≠ "") as Hne by discriminate.
  split; [exact Hne|]. split; [reflexivity|].
  exact (manage_email_recipients "c@x" action w Hne eq_refl).
Defined.

(** [added_recipient_alerted_once] on an address that is a recipient
    already. *)
Lemma added_recipient_alerted_once_witness :
  let w := Bench.running Bench.quiet in
  let w1 := (manage_email (Some "a@x") (Some "add") w).2 in
  "a@x" ≠ ""
  /\ NoDup (tbl_email_recipients (db w))
  /\ (sqlite_fault (env w)).1 = None
  /\ (sqlite_fault (env w1)).1 = None
  /\ exists before after w2,
       send_email_alert 1 45 w1 = (Returns tt, w2)
       /\ mail_calls w2
          = (mail_calls w
             ++ map (alert_message 1 45) before
             ++ [alert_message 1 45 "a@x"]
             ++ map (alert_message 1 45) after)%list
       /\ ("a@x" ∉ before) /\ ("a@x" ∉ after).
Proof.
  intros w w1.
  assert ("a@x" ≠ "") as Hne by discriminate.
  assert (NoDup (tbl_email_recipients (db w))) as Hnd.
  { change (NoDup ["a@x"; "b@x"]). apply NoDup_cons. split.
    - intros Hin. apply list_elem_of_singleton in Hin. discriminate.
    - apply NoDup_singleton. }
  split; [exact Hne|]. split; [exact Hnd|]. split; [reflexivity|].
  split; [reflexivity|].
  exact (added_recipient_alerted_once "a@x" 1 45 w Hne Hnd eq_refl eq_refl).
Defined.

(** [in_range_logged_not_alerted] on a reading equal to the upper limit. *)
Lemma in_range_logged_not_alerted_witness :
  let w := Bench.running Bench.at_the_limit in
  let w1 := (read_sensor 1 w).2 in
  let w2 := (get_fan_status 1 w1).2 in
  let w3 := (log_data 1 (Some 40%float) (Some 50%float) false w2).2 in
  read_sensor 1 w = (Returns (Some 40%float, Some 50%float), w1)
  /\ get_fan_status 1 w1 = (Returns false, w2)
  /\ ((40 <? 10)%float || (40 <? 40)%float)%bool = false
  /\ monitor_unit 10 40 1 w = (Returns tt, set_env (time_sleep 2 (env w3)) w3)
  /\ mail_calls w3 = mail_calls w
  /\ env w3 = (sqlite_fault (env w2)).2
  /\ tbl_temperature_log (db w3)
     = (tbl_temperature_log (db w)
        ++ [mkLogRow 1 (Some 40%float) (Some 50%float) 0])%list.
Proof.
  intros w w1 w2 w3.
  assert (read_sensor 1 w = (Returns (Some 40%float, Some 50%float), w1))
    as Hread by (vm_compute; reflexivity).
  assert (get_fan_status 1 w1 = (Returns false, w2)) as Hfan
    by (vm_compute; reflexivity).
  assert (((40 <? 10)%float || (40 <? 40)%float)%bool = false) as Hin
    by reflexivity.
  split; [exact Hread|]. split; [exact Hfan|]. split; [exact Hin|].
  exact (in_range_logged_not_alerted 10 40 1 40 (Some 50%float) false w w1 w2
           Hread Hfan Hin).
Defined.

(** [unknown_unit_raises] on a snapshot that starts with a unit that is
    gone. *)
Lemma unknown_unit_raises_witness :
  let w := Bench.running Bench.hot_and_smtp_down in
  let missing := mkExn KeyError (pretty 7%Z) in
  units_lock w = false
  /\ (7%Z ∉ keys (registry w))
  /\ read_sensor 7 w = (Raises missing, w)
  /\ get_fan_status 7 w = (Raises missing, w)
  /\ monitor_unit 10 40 7 w = (Raises missing, w)
  /\ for_each [7%Z; 1%Z] (monitor_unit 10 40) w = (Raises missing, w).
Proof.
  intros w missing.
  assert (7%Z ∉ keys (registry w)) as Hout.
  { change (7%Z ∉ [1%Z]). intros Hin. apply list_elem_of_singleton in Hin.
    discriminate. }
  split; [reflexivity|]. split; [exact Hout|].
  exact (unknown_unit_raises 10 40 7 [1%Z] w eq_refl Hout).
Defined.

(** [add_unit_stores_and_reloads] on a second unit, on D17 and GPIO 22. *)
Lemma add_unit_stores_and_reloads_witness :
  let w := Bench.running Bench.quiet in
  let new_row := mkUnitRow (next_unit_id (db w)) "attic" "D17" 22 1 in
  py_int "22" = Some 22%Z
  /\ board_getattr "D17" = Some 17%Z
  /\ (forall row, row ∈ tbl_units (db w) -> row_name row ≠ "attic")
  /\ units_lock w = false
  /\ (sqlite_fault (env w)).1 = None
  /\ (sqlite_fault (sqlite_fault (env w)).2).1 = None
  /\ exists w',
       add_unit Bench.attic_on_D17 w = (Returns (mkResponse true None 200), w')
       /\ tbl_units (db w') = (tbl_units (db w) ++ [new_row])%list
       /\ (forall row, row ∈ tbl_units (db w) -> (row_id row < row_id new_row)%Z)
       /\ (row_id new_row ∈ keys (registry w') <->
           loads new_row
                 (env_after (active_units (db w))
                            (sqlite_fault (sqlite_fault (env w)).2).2)).
Proof.
  intros w new_row.
  assert (forall row, row ∈ tbl_units (db w) -> row_name row ≠ "attic") as Hfree.
  { intros row Hin.
    change (row ∈ [mkUnitRow 1 "fridge" "D4" 17 1]) in Hin.
    apply list_elem_of_singleton in Hin. by subst row. }
  split; [reflexivity|]. split; [reflexivity|]. split; [exact Hfree|].
  split; [reflexivity|]. split; [reflexivity|]. split; [reflexivity|].
  exact (add_unit_stores_and_reloads "attic" "D17" "22" 22 17%Z w
           ltac:(discriminate) ltac:(discriminate) ltac:(discriminate)
           eq_refl eq_refl Hfree eq_refl eq_refl eq_refl).
Defined.

(** [monitor_cycle_only_appends] on a turn that logs the one unit of the
    bench. *)
Lemma monitor_cycle_only_appends_witness :
  let w := Bench.running Bench.at_the_limit in
  let w' := (monitor_cycle 0 w).2 in
  NoDup (keys (registry w))
  /\ tbl_temperature_log (db w')
     = (tbl_temperature_log (db w)
        ++ [mkLogRow 1 (Some 40%float) (Some 50%float) 0])%list
  /\ exists rows,
       db w' = add_log_rows (db w) rows
       /\ Forall (fun r => is_Some (log_temperature r)) rows
       /\ map log_unit_id rows `sublist_of` keys (registry w')
       /\ NoDup (keys (registry w'))
       /\ NoDup (map log_unit_id rows).
Proof.
  intros w w'.
  assert (NoDup (keys (registry w))) as Hkeys.
  { change (NoDup [1%Z]). apply NoDup_singleton. }
  split; [exact Hkeys|]. split; [vm_compute; reflexivity|].
  destruct (monitor_cycle_only_appends 0 w)
    as (rows & Hdb & Hall & Hsub & Hnodup).
  destruct (Hnodup Hkeys) as [Hkeys' Hrows].
  exists rows. split_and!; assumption.
Defined.

(** [units_stay_unique] on the store of the bench. *)
Lemma units_stay_unique_witness :
  let w := Bench.running Bench.quiet in
  units_unique (db w)
  /\ (forall form, units_unique (db (add_unit form w).2))
  /\ (forall unit_id, units_unique (db (remove_unit unit_id w).2))
  /\ (forall form row row',
        row ∈ tbl_units (db w) ->
        row' ∈ tbl_units (db (add_unit form w).2) ->
        row_id row' = row_id row -> row_name row' = row_name row).
Proof.
  intros w.
  assert (units_unique (db w)) as Huniq.
  { change (NoDup [1%Z] /\ NoDup ["fridge"]). split; apply NoDup_singleton. }
  split; [exact Huniq|].
  exact (units_stay_unique w Huniq).
Defined.

#[local] Existing Instance Bench.fan_driver.

